(** * The downloads applet of bokeh ([examples/app/downloads/downloads.py])

    A shallow embedding of [DownloadsApp.update_data] and of the objects it
    reads and writes, followed by the properties of its two derived datasets
    (the download time series and the hour-by-weekday punchcard).

    Conventions of the embedding:
    - a pandas [Timestamp] read with [pd.to_datetime(..., unit='s')] is the
      integer number of seconds since 1970-01-01T00:00:00; its calendar
      attributes ([year], [month], [day], [hour], [dayofweek]) are computed
      from that number in the proleptic Gregorian calendar;
    - a [datetime.date] is the triple (year, month, day), compared as Python
      compares it;
    - a [DataFrame] is the list of its rows, a [Series] returned by
      [groupby(...).size()] the list of its (index, value) pairs;
    - a [float64] holding the quotient of two integers is the exact
      rational, with [NaN] and the infinities kept apart;
    - the [data] dict of a [ColumnDataSource] is a finite map from column
      names to columns. *)

From Stdlib Require Import ZArith QArith Qcanon Lia.
From stdpp Require Import gmap strings list fin_maps pretty sorting.

Local Open Scope Z_scope.

(** ** Calendar arithmetic behind [Timestamp] and [datetime.date] *)

(** Day number (days since 1970-01-01) of a civil date. *)
Definition days_from_civil (y m d : Z) : Z :=
  let y := if m <=? 2 then y - 1 else y in
  let era := y / 400 in
  let yoe := y - era * 400 in
  let mp := if 2 <? m then m - 3 else m + 9 in
  let doy := (153 * mp + 2) / 5 + d - 1 in
  let doe := yoe * 365 + yoe / 4 - yoe / 100 + doy in
  era * 146097 + doe - 719468.

(** Civil date (year, month, day) of a day number. *)
Definition civil_from_days (z : Z) : Z * Z * Z :=
  let z := z + 719468 in
  let era := z / 146097 in
  let doe := z - era * 146097 in
  let yoe := (doe - doe / 1460 + doe / 36524 - doe / 146096) / 365 in
  let y := yoe + era * 400 in
  let doy := doe - (365 * yoe + yoe / 4 - yoe / 100) in
  let mp := (5 * doy + 2) / 153 in
  let d := doy - (153 * mp + 2) / 5 + 1 in
  let m := if mp <? 10 then mp + 3 else mp - 9 in
  (if m <=? 2 then y + 1 else y, m, d).

(** [pandas.Timestamp], at the resolution of the input feed (seconds). *)
Definition Timestamp : Type := Z.

Definition seconds_per_day : Z := 86400.

Definition year (x : Timestamp) : Z := (civil_from_days (x / seconds_per_day)).1.1.
Definition month (x : Timestamp) : Z := (civil_from_days (x / seconds_per_day)).1.2.
Definition day (x : Timestamp) : Z := (civil_from_days (x / seconds_per_day)).2.
Definition hour (x : Timestamp) : Z := (x mod seconds_per_day) / 3600.

(** Monday is 0 and Sunday is 6; 1970-01-01 was a Thursday. *)
Definition dayofweek (x : Timestamp) : Z := (x / seconds_per_day + 3) mod 7.

(** [datetime.date(year, month, day)]. *)
Record pydate : Type := datetime_date { year_of : Z; month_of : Z; day_of : Z }.

#[export] Instance pydate_eq_dec : EqDecision pydate.
Proof. solve_decision. Defined.

Definition is_leap (y : Z) : bool :=
  ((y mod 4 =? 0) && negb (y mod 100 =? 0)) || (y mod 400 =? 0).

Definition days_in_month (y m : Z) : Z :=
  if m =? 2 then (if is_leap y then 29 else 28)
  else if (m =? 4) || (m =? 6) || (m =? 9) || (m =? 11) then 30
  else 31.

(** Month and day of a date of the calendar. Every [datetime.date] is
    one: the constructor raises [ValueError] for any other triple (and
    for years outside 1..9999, a bound no property below depends on). *)
Definition calendar_date (d : pydate) : Prop :=
  1 <= month_of d <= 12 /\
  1 <= day_of d <= days_in_month (year_of d) (month_of d).

(** [Timestamp.date()]. *)
Definition date_of_Timestamp (x : Timestamp) : pydate :=
  datetime_date (year x) (month x) (day x).

(** [Timestamp(d)] for a [datetime.date]: midnight at the start of [d].
    This is the coercion pandas applies to the scalar when a
    [datetime64] column is compared with a [datetime.date]. *)
Definition Timestamp_of_date (d : pydate) : Timestamp :=
  days_from_civil (year_of d) (month_of d) (day_of d) * seconds_per_day.

(** ** Ordered keys *)

(** Three-way comparison of group keys, as Python orders them. *)
Class Cmp (K : Type) : Type := cmp : K -> K -> comparison.

(** [datetime.date] compares as the tuple (year, month, day). *)
#[export] Instance pydate_cmp : Cmp pydate := fun a b =>
  match year_of a ?= year_of b with
  | Eq => match month_of a ?= month_of b with
          | Eq => day_of a ?= day_of b
          | c => c
          end
  | c => c
  end.

(** Keys of a two-level group: tuples compare lexicographically. *)
#[export] Instance pair_cmp : Cmp (Z * Z) := fun a b =>
  match a.1 ?= b.1 with
  | Eq => a.2 ?= b.2
  | c => c
  end.

Definition date_le (a b : pydate) : Prop := cmp a b <> Gt.

(** ** The pandas operations used by the applet *)

(** A [Series]: index labels with their values, in index order. *)
Abbreviation Series K V := (list (K * V)%type) (only parsing).

Definition index {K V} (s : Series K V) : list K := s.*1.
Definition values {K V} (s : Series K V) : list V := s.*2.

(** One more row with key [k] in a key-sorted table of group sizes. *)
Fixpoint bump {K} `{Cmp K} (k : K) (s : Series K Z) : Series K Z :=
  match s with
  | [] => [(k, 1)]
  | (k', n) :: r =>
      match cmp k k' with
      | Lt => (k, 1) :: (k', n) :: r
      | Eq => (k', n + 1) :: r
      | Gt => (k', n) :: bump k r
      end
  end.

(** [df.groupby(keys).size()]: the number of rows per key that occurs,
    indexed by the keys in ascending order ([sort=True] is the default). *)
Definition groupby_size {K} `{Cmp K} (keys : list K) : Series K Z :=
  foldr bump [] keys.

(** [Series.max()] of an integer series; [None] stands for the [NaN]
    pandas returns on an empty series. *)
Definition series_max (l : list Z) : option Z :=
  foldr (fun x acc => Some (match acc with None => x | Some m => Z.max x m end)) None l.

(** [float64] values that arise from dividing integers. *)
Inductive float64 : Type :=
  | Fin (q : Qc)
  | Inf (negative : bool)
  | NaN.

#[export] Instance float64_eq_dec : EqDecision float64.
Proof. solve_decision. Defined.

(** [float(c) / m], where [m] is the result of [Series.max()]. numpy
    division never raises: a zero divisor gives an infinity or [NaN]. *)
Definition truediv (c : Z) (m : option Z) : float64 :=
  match m with
  | None => NaN
  | Some m =>
      if m =? 0 then (if c =? 0 then NaN else Inf (c <? 0))
      else Fin (Q2Qc (inject_Z c / inject_Z m))
  end.

(** ** The event log *)

(** One line of [data/installers.internalpanel.data.log]. *)
Record CsvRow : Type := {
  csv_timestamp : Z;
  csv_event : string;
  csv_platform : string;
  csv_arch : string
}.

(** The columns of the [installers] frame. *)
Module Installers.
Record row : Type := {
  timestamp : Z;
  event : string;
  platform : string;
  arch : string;
  date : Timestamp
}.
End Installers.

Abbreviation DataFrame := (list Installers.row) (only parsing).

(** [pd.to_datetime(t, unit='s')]. *)
Definition to_datetime (t : Z) : Timestamp := t.

Definition load_csv (file : list CsvRow) : DataFrame :=
  (fun r => {| Installers.timestamp := csv_timestamp r;
               Installers.event := csv_event r;
               Installers.platform := csv_platform r;
               Installers.arch := csv_arch r;
               Installers.date := to_datetime (csv_timestamp r) |}) <$> file.

(** [Series.min()] and [Series.max()] of a [datetime64] column; [None]
    stands for [NaT]. *)
Definition Timestamp_min (l : list Timestamp) : option Timestamp :=
  foldr (fun x acc => Some (match acc with None => x | Some m => Z.min x m end)) None l.

Definition Timestamp_max (l : list Timestamp) : option Timestamp :=
  foldr (fun x acc => Some (match acc with None => x | Some m => Z.max x m end)) None l.

(** ** The form model *)

Inductive Resolution : Type := daily | monthly | yearly.

Module InstallersModel.
Record t : Type := {
  installer : string;
  resolution : Resolution;
  platform : string;
  arch : string;
  start : pydate;
  end_ : pydate
}.

Definition set_installer (v : string) (m : t) : t :=
  {| installer := v; resolution := resolution m; platform := platform m;
     arch := arch m; start := start m; end_ := end_ m |}.
Definition set_resolution (v : Resolution) (m : t) : t :=
  {| installer := installer m; resolution := v; platform := platform m;
     arch := arch m; start := start m; end_ := end_ m |}.
Definition set_platform (v : string) (m : t) : t :=
  {| installer := installer m; resolution := resolution m; platform := v;
     arch := arch m; start := start m; end_ := end_ m |}.
Definition set_arch (v : string) (m : t) : t :=
  {| installer := installer m; resolution := resolution m; platform := platform m;
     arch := v; start := start m; end_ := end_ m |}.
Definition set_start (v : pydate) (m : t) : t :=
  {| installer := installer m; resolution := resolution m; platform := platform m;
     arch := arch m; start := v; end_ := end_ m |}.
Definition set_end (v : pydate) (m : t) : t :=
  {| installer := installer m; resolution := resolution m; platform := platform m;
     arch := arch m; start := start m; end_ := v |}.
End InstallersModel.

(** [InstallersModel()]: every property at its default. The defaults of
    [start] and [end] are the dates of the earliest and of the latest
    event, and do not exist for an empty log. *)
Definition InstallersModel_new (installers : DataFrame) : option InstallersModel.t :=
  lo ← Timestamp_min (Installers.date <$> installers);
  hi ← Timestamp_max (Installers.date <$> installers);
  Some {| InstallersModel.installer := "All";
          InstallersModel.resolution := monthly;
          InstallersModel.platform := "All";
          InstallersModel.arch := "All";
          InstallersModel.start := date_of_Timestamp lo;
          InstallersModel.end_ := date_of_Timestamp hi |}.

(** ** Data sources and the applet *)

Inductive Column : Type :=
  | Dates (l : list pydate)
  | Ints (l : list Z)
  | Floats (l : list float64)
  | Strs (l : list string).

Definition column_length (c : Column) : nat :=
  match c with
  | Dates l => length l
  | Ints l => length l
  | Floats l => length l
  | Strs l => length l
  end.

Record ColumnDataSource : Type := {
  data : gmap string Column;
  _dirty : bool
}.

(** Of a [Plot] only the title is kept: glyphs, axes, ranges and tools
    belong to the rendering layer and are not read by [update_data]. *)
Record Plot : Type := { title : string }.

Record DownloadsApp : Type := {
  modelform : InstallersModel.t;
  downloads_source : ColumnDataSource;
  punchcard_source : ColumnDataSource;
  downloads_plot : option Plot;
  punchcard_plot : option Plot
}.

(** *** [update_data], one definition per local variable *)

(** The five filter steps, in source order. A step guarded by
    [!= "All"] keeps every row when the guard is off. *)
Definition keep_start (mf : InstallersModel.t) (r : Installers.row) : Prop :=
  Timestamp_of_date (InstallersModel.start mf) <= Installers.date r.

Definition keep_end (mf : InstallersModel.t) (r : Installers.row) : Prop :=
  Installers.date r <= Timestamp_of_date (InstallersModel.end_ mf).

Definition keep_installer (mf : InstallersModel.t) (r : Installers.row) : Prop :=
  InstallersModel.installer mf <> "All"%string ->
  Installers.event r = InstallersModel.installer mf.

Definition keep_platform (mf : InstallersModel.t) (r : Installers.row) : Prop :=
  InstallersModel.platform mf <> "All"%string ->
  Installers.platform r = InstallersModel.platform mf.

Definition keep_arch (mf : InstallersModel.t) (r : Installers.row) : Prop :=
  InstallersModel.arch mf <> "All"%string ->
  Installers.arch r = InstallersModel.arch mf.

#[export] Instance keep_start_dec mf r : Decision (keep_start mf r).
Proof. unfold keep_start. apply _. Defined.
#[export] Instance keep_end_dec mf r : Decision (keep_end mf r).
Proof. unfold keep_end. apply _. Defined.
#[export] Instance keep_installer_dec mf r : Decision (keep_installer mf r).
Proof. unfold keep_installer. apply _. Defined.
#[export] Instance keep_platform_dec mf r : Decision (keep_platform mf r).
Proof. unfold keep_platform. apply _. Defined.
#[export] Instance keep_arch_dec mf r : Decision (keep_arch mf r).
Proof. unfold keep_arch. apply _. Defined.

(** [selected = selected[selected.date >= self.modelform.start]] *)
Definition step_start (mf : InstallersModel.t) (selected : DataFrame) : DataFrame :=
  filter (keep_start mf) selected.

(** [selected = selected[selected.date <= self.modelform.end]] *)
Definition step_end (mf : InstallersModel.t) (selected : DataFrame) : DataFrame :=
  filter (keep_end mf) selected.

Definition step_installer (mf : InstallersModel.t) (selected : DataFrame) : DataFrame :=
  let installer := InstallersModel.installer mf in
  if decide (installer <> "All"%string)
  then filter (fun r => Installers.event r = installer) selected
  else selected.

Definition step_platform (mf : InstallersModel.t) (selected : DataFrame) : DataFrame :=
  let platform := InstallersModel.platform mf in
  if decide (platform <> "All"%string)
  then filter (fun r => Installers.platform r = platform) selected
  else selected.

Definition step_arch (mf : InstallersModel.t) (selected : DataFrame) : DataFrame :=
  let arch := InstallersModel.arch mf in
  if decide (arch <> "All"%string)
  then filter (fun r => Installers.arch r = arch) selected
  else selected.

Definition selected (installers : DataFrame) (mf : InstallersModel.t) : DataFrame :=
  let selected := installers in
  let selected := step_start mf selected in
  let selected := step_end mf selected in
  let selected := step_installer mf selected in
  let selected := step_platform mf selected in
  let selected := step_arch mf selected in
  selected.

(** The bucket function chosen by [resolution]. *)
Definition fn (resolution : Resolution) (x : Timestamp) : pydate :=
  match resolution with
  | daily => datetime_date (year x) (month x) (day x)
  | monthly => datetime_date (year x) (month x) 1
  | yearly => datetime_date (year x) 1 1
  end.

Definition dates (installers : DataFrame) (mf : InstallersModel.t) : list pydate :=
  fn (InstallersModel.resolution mf) <$> (Installers.date <$> selected installers mf).

Definition downloads (installers : DataFrame) (mf : InstallersModel.t) : Series pydate Z :=
  groupby_size (dates installers mf).

Definition hours (installers : DataFrame) (mf : InstallersModel.t) : list Z :=
  hour <$> (Installers.date <$> selected installers mf).

Definition daysofweek (installers : DataFrame) (mf : InstallersModel.t) : list Z :=
  dayofweek <$> (Installers.date <$> selected installers mf).

Definition counts (installers : DataFrame) (mf : InstallersModel.t) : Series (Z * Z) Z :=
  groupby_size (zip (hours installers mf) (daysofweek installers mf)).

Definition percentages (installers : DataFrame) (mf : InstallersModel.t)
  : Series (Z * Z) float64 :=
  let counts := counts installers mf in
  (fun kc => (kc.1, truediv kc.2 (series_max (values counts)))) <$> counts.

(** [source.data.update(d)] followed by [source._dirty = True]. *)
Definition update_source (d : gmap string Column) (s : ColumnDataSource) : ColumnDataSource :=
  {| data := d ∪ data s; _dirty := true |}.

Definition update_data (installers : DataFrame) (self : DownloadsApp) : DownloadsApp :=
  let mf := modelform self in
  {| modelform := mf;
     downloads_source :=
       update_source
         (<["dates"%string := Dates (index (downloads installers mf))]>
            (<["downloads"%string := Ints (values (downloads installers mf))]> ∅))
         (downloads_source self);
     punchcard_source :=
       update_source
         (<["counts"%string := Ints (values (counts installers mf))]>
            (<["percentages"%string := Floats (values (percentages installers mf))]> ∅))
         (punchcard_source self);
     downloads_plot := downloads_plot self;
     punchcard_plot := punchcard_plot self |}.

(** *** [create] and [input_change] *)

Definition hour_labels : list string :=
  concat ((fun hour : Z => replicate 7 (pretty hour)) <$> seqZ 0 24).

Definition day_labels : list string :=
  concat (replicate 24
    ["Monday"; "Tuesday"; "Wednesday"; "Thursday"; "Friday"; "Saturday"; "Sunday"]%string).

Definition make_downloads_plot (mf : InstallersModel.t) : Plot :=
  {| title := (InstallersModel.installer mf ++ " downloads")%string |}.

Definition make_punchcard_plot (mf : InstallersModel.t) : Plot :=
  {| title := (InstallersModel.installer mf ++ " punchcard")%string |}.

(** The applet as [create] sets it up before the first [update_data]:
    empty data columns, the grid labels, no plot yet. *)
Definition fresh_applet (mf : InstallersModel.t) : DownloadsApp :=
  {| modelform := mf;
     downloads_source :=
       {| data := <["dates"%string := Dates []]>
                    (<["downloads"%string := Ints []]> ∅);
          _dirty := false |};
     punchcard_source :=
       {| data := <["counts"%string := Ints []]>
                    (<["percentages"%string := Floats []]>
                       (<["hours"%string := Strs hour_labels]>
                          (<["days"%string := Strs day_labels]> ∅)));
          _dirty := false |};
     downloads_plot := None;
     punchcard_plot := None |}.

(** [create]: fresh sources, one [update_data], then the plots. It needs
    the defaults of the form, hence a log with at least one event. *)
Definition create (installers : DataFrame) : option DownloadsApp :=
  mf ← InstallersModel_new installers;
  let self := update_data installers (fresh_applet mf) in
  Some {| modelform := modelform self;
          downloads_source := downloads_source self;
          punchcard_source := punchcard_source self;
          downloads_plot := Some (make_downloads_plot mf);
          punchcard_plot := Some (make_punchcard_plot mf) |}.

(** The form after the user changed one widget: the callback sees the
    model with the new value already stored. *)
Definition with_modelform (mf : InstallersModel.t) (self : DownloadsApp) : DownloadsApp :=
  {| modelform := mf;
     downloads_source := downloads_source self;
     punchcard_source := punchcard_source self;
     downloads_plot := downloads_plot self;
     punchcard_plot := punchcard_plot self |}.

Definition input_change (installers : DataFrame) (self : DownloadsApp) : DownloadsApp :=
  let self := update_data installers self in
  {| modelform := modelform self;
     downloads_source := downloads_source self;
     punchcard_source := punchcard_source self;
     downloads_plot := Some (make_downloads_plot (modelform self));
     punchcard_plot := Some (make_punchcard_plot (modelform self)) |}.

(** A session: the widget values the user sets one after the other, each
    followed by the [input_change] callback. *)
Definition session (installers : DataFrame) (changes : list InstallersModel.t)
    (self : DownloadsApp) : DownloadsApp :=
  foldl (fun app mf => input_change installers (with_modelform mf app)) self changes.

(** *** The two derived datasets as the view reads them *)

(** The time series: the [dates] and [downloads] columns, row by row. *)
Definition TimeSeries (installers : DataFrame) (mf : InstallersModel.t)
  : list (pydate * Z) := downloads installers mf.

(** The punchcard cells the recomputation emits: the [counts] and
    [percentages] columns, row by row. *)
Definition Punchcard (installers : DataFrame) (mf : InstallersModel.t)
  : list (Z * float64) :=
  zip (values (counts installers mf)) (values (percentages installers mf)).

(** The 168 (hour, weekday) pairs in hour-major order, the layout of the
    [hours] and [days] label columns. *)
Definition grid : list (Z * Z) :=
  h ← seqZ 0 24; (fun d => (h, d)) <$> seqZ 0 7.

(** ** Vocabulary of the properties *)

(** What the proofs need of a key order. *)
Class CmpLaws (K : Type) `{Cmp K} : Prop := {
  cmp_eq_iff (a b : K) : cmp a b = Eq <-> a = b;
  cmp_flip (a b : K) : cmp b a = CompOpp (cmp a b);
  cmp_lt_trans (a b c : K) : cmp a b = Lt -> cmp b c = Lt -> cmp a c = Lt
}.

Definition sum_Z (l : list Z) : Z := foldr Z.add 0 l.

(** Strictly ascending keys. *)
Definition ascending {K} `{Cmp K} (l : list K) : Prop :=
  StronglySorted (fun a b => cmp a b = Lt) l.

(** Number of occurrences of a key among the rows. *)
Definition occurrences {K} `{EqDecision K} (k : K) (keys : list K) : Z :=
  Z.of_nat (length (filter (fun k' => k' = k) keys)).

(** Total size recorded for a key in a table of group sizes. *)
Definition weight {K} `{EqDecision K} (k : K) (s : Series K Z) : Z :=
  sum_Z (values (filter (fun kc => kc.1 = k) s)).

(** The five filter steps of [update_data] in source order, and a run of
    any sequence of steps over a frame. *)
Definition filter_steps (mf : InstallersModel.t) : list (DataFrame -> DataFrame) :=
  [step_start mf; step_end mf; step_installer mf; step_platform mf; step_arch mf].

Definition run_steps (steps : list (DataFrame -> DataFrame)) (df : DataFrame) : DataFrame :=
  foldl (fun selected step => step selected) df steps.

(** A step that keeps the rows satisfying some predicate. *)
Definition is_filter (step : DataFrame -> DataFrame) : Prop :=
  exists (P : Installers.row -> Prop) (dec : forall r, Decision (P r)),
    forall df, step df = filter P df.

(** The largest count over the emitted cells, 0 when there is none. *)
Definition max_count (installers : DataFrame) (mf : InstallersModel.t) : Z :=
  foldr Z.max 0 (values (counts installers mf)).

(** The reduced fraction held by a finite float. *)
Definition rational (p : float64) : option Q :=
  match p with
  | Fin q => Some (this q)
  | _ => None
  end.

Definition day_name (d : Z) : string :=
  nth (Z.to_nat d)
    ["Monday"; "Tuesday"; "Wednesday"; "Thursday"; "Friday"; "Saturday"; "Sunday"]%string
    EmptyString.

(** Checks of the calendar arithmetic over one 400-year era (146097
    days), which the era's period extends to every day number. *)
Definition calendar_triple (y m d : Z) : bool :=
  (1 <=? m) && (m <=? 12) && (1 <=? d) && (d <=? days_in_month y m).

Definition era_day_ok (doe : Z) : bool :=
  let '(y, m, d) := civil_from_days (doe - 719468) in
  calendar_triple y m d && (days_from_civil y m d =? doe - 719468).

Fixpoint all_from (f : Z -> bool) (z : Z) (n : nat) : bool :=
  match n with
  | O => true
  | S n => f z && all_from f (z + 1) n
  end.

(** ** Sample logs *)

Definition csv (t : Z) (e p a : string) : CsvRow :=
  {| csv_timestamp := t; csv_event := e; csv_platform := p; csv_arch := a |}.

(** Three events: 2024-01-01 10:00 (installer A), 2024-01-01 12:00
    (installer B) and 2024-02-15 12:00 (installer A). *)
Definition three_events : list Installers.row :=
  load_csv [csv 1704103200 "A" "win" "x64"; csv 1704110400 "B" "osx" "x64";
            csv 1707998400 "A" "win" "x64"]%string.

(** Two events on Monday 2024-01-01 at 10:00 and 10:30 and one on
    Tuesday 2024-01-02 at 00:00:00. *)
Definition two_cells : list Installers.row :=
  load_csv [csv 1704103200 "A" "win" "x64"; csv 1704105000 "A" "win" "x64";
            csv 1704153600 "B" "osx" "x64"]%string.

(** A form with every category at "All". *)
Definition form (resolution : Resolution) (start end_ : pydate) : InstallersModel.t :=
  {| InstallersModel.installer := "All";
     InstallersModel.resolution := resolution;
     InstallersModel.platform := "All";
     InstallersModel.arch := "All";
     InstallersModel.start := start;
     InstallersModel.end_ := end_ |}.

(** ** Vocabulary of the further properties *)

(** Total size recorded for the keys that satisfy [P]. *)
Definition sum_where {K} (P : K -> Prop) `{!forall k, Decision (P k)}
    (s : Series K Z) : Z :=
  sum_Z (values (filter (fun kc => P kc.1) s)).

(** The (hour, weekday) combination of a row. *)
Definition cell_of (r : Installers.row) : Z * Z :=
  (hour (Installers.date r), dayofweek (Installers.date r)).

(** [Series.unique()]: the distinct values in order of first appearance. *)
Fixpoint unique (l : list string) : list string :=
  match l with
  | [] => []
  | x :: l => x :: filter (fun y => y <> x) (unique l)
  end.

(** [sorted(l)] on strings, which Python compares character by
    character. *)
Definition sorted (l : list string) : list string := merge_sort String.le l.

(** The values of [Enum("All", *sorted(column.unique()))]; the first is
    the default. *)
Definition Enum_values (column : list string) : list string :=
  "All"%string :: sorted (unique column).

Definition installer_values (installers : DataFrame) : list string :=
  Enum_values (Installers.event <$> installers).

Definition platform_values (installers : DataFrame) : list string :=
  Enum_values (Installers.platform <$> installers).

Definition arch_values (installers : DataFrame) : list string :=
  Enum_values (Installers.arch <$> installers).

(** The forms the widgets of [input_specs] can produce: each select
    offers the values of its [Enum], the start picker no date before the
    default start ([min_date]), the end picker no date after the default
    end ([max_date]). *)
Definition offered (installers : DataFrame) (mf : InstallersModel.t) : Prop :=
  exists mf0,
    InstallersModel_new installers = Some mf0 /\
    InstallersModel.installer mf ∈ installer_values installers /\
    InstallersModel.platform mf ∈ platform_values installers /\
    InstallersModel.arch mf ∈ arch_values installers /\
    calendar_date (InstallersModel.start mf) /\
    calendar_date (InstallersModel.end_ mf) /\
    date_le (InstallersModel.start mf0) (InstallersModel.start mf) /\
    date_le (InstallersModel.end_ mf) (InstallersModel.end_ mf0).

(** [l[::n]] for a positive step [n]. *)
Definition slice_step {A} (n : nat) (l : list A) : list A :=
  omap (fun i => l !! (i * n)%nat) (seq 0 (length l)).

Definition column_slice (f : forall A, list A -> list A) (c : Column) : Column :=
  match c with
  | Dates l => Dates (f _ l)
  | Ints l => Ints (f _ l)
  | Floats l => Floats (f _ l)
  | Strs l => Strs (f _ l)
  end.

(** The factors of the two ranges of [make_punchcard_plot]:
    [source.data["hours"][::7]] and [source.data["days"][:7]]; [None] is the
    [KeyError] of a source without one of the columns. *)
Definition punchcard_factors (source : ColumnDataSource) : option (Column * Column) :=
  hours ← data source !! "hours"%string;
  days ← data source !! "days"%string;
  Some (column_slice (fun A => slice_step 7) hours, column_slice (fun A => take 7) days).

(** * Properties *)

(** ** Laws of the key orders *)

#[export] Instance pydate_cmp_laws : CmpLaws pydate.
Proof.
  split.
  - intros [y1 m1 d1] [y2 m2 d2]. unfold cmp, pydate_cmp. simpl.
    destruct (Z.compare_spec y1 y2), (Z.compare_spec m1 m2), (Z.compare_spec d1 d2);
      split; intros E; try discriminate E; try (inversion E; lia); subst; reflexivity.
  - intros [y1 m1 d1] [y2 m2 d2]. unfold cmp, pydate_cmp. simpl.
    rewrite (Z.compare_antisym y1 y2), (Z.compare_antisym m1 m2), (Z.compare_antisym d1 d2).
    destruct (y1 ?= y2), (m1 ?= m2), (d1 ?= d2); reflexivity.
  - intros [y1 m1 d1] [y2 m2 d2] [y3 m3 d3]. unfold cmp, pydate_cmp. simpl.
    destruct (Z.compare_spec y1 y2), (Z.compare_spec m1 m2), (Z.compare_spec d1 d2);
      try discriminate;
      destruct (Z.compare_spec y2 y3), (Z.compare_spec m2 m3), (Z.compare_spec d2 d3);
      try discriminate; intros _ _;
      destruct (Z.compare_spec y1 y3), (Z.compare_spec m1 m3), (Z.compare_spec d1 d3);
      try reflexivity; lia.
Qed.

#[export] Instance pair_cmp_laws : CmpLaws (Z * Z).
Proof.
  split.
  - intros [h1 d1] [h2 d2]. unfold cmp, pair_cmp. simpl.
    destruct (Z.compare_spec h1 h2), (Z.compare_spec d1 d2);
      split; intros E; try discriminate E; try (inversion E; lia); subst; reflexivity.
  - intros [h1 d1] [h2 d2]. unfold cmp, pair_cmp. simpl.
    rewrite (Z.compare_antisym h1 h2), (Z.compare_antisym d1 d2).
    destruct (h1 ?= h2), (d1 ?= d2); reflexivity.
  - intros [h1 d1] [h2 d2] [h3 d3]. unfold cmp, pair_cmp. simpl.
    destruct (Z.compare_spec h1 h2), (Z.compare_spec d1 d2); try discriminate;
      destruct (Z.compare_spec h2 h3), (Z.compare_spec d2 d3); try discriminate;
      intros _ _;
      destruct (Z.compare_spec h1 h3), (Z.compare_spec d1 d3); try reflexivity; lia.
Qed.

(** ** Group sizes *)

Section groupby.
Context {K : Type} `{CmpLaws K} `{EqDecision K}.

Implicit Types (k : K) (s : Series K Z) (keys : list K).

Lemma cmp_lt_irrefl k : cmp k k <> Lt.
Proof.
  intros E. assert (cmp k k = Eq) as E' by (by apply cmp_eq_iff). congruence.
Qed.

Lemma cmp_gt_lt a b : cmp a b = Gt -> cmp b a = Lt.
Proof. intros E. rewrite cmp_flip, E. reflexivity. Qed.

Lemma bump_index k s k' :
  k' ∈ index (bump k s) <-> k' = k \/ k' ∈ index s.
Proof.
  unfold index. induction s as [|[k0 n] r IH]; simpl.
  - rewrite list_elem_of_singleton, elem_of_nil. tauto.
  - destruct (cmp k k0) eqn:E; simpl.
    + apply cmp_eq_iff in E. subst. rewrite !elem_of_cons. tauto.
    + rewrite !elem_of_cons. simpl. tauto.
    + rewrite !elem_of_cons, IH. tauto.
Qed.

Lemma bump_ascending k s : ascending (index s) -> ascending (index (bump k s)).
Proof.
  unfold ascending, index. induction s as [|[k0 n] r IH]; simpl; intros Hs.
  - repeat constructor.
  - apply StronglySorted_inv in Hs as [Hr Hall].
    destruct (cmp k k0) eqn:E; simpl.
    + constructor; assumption.
    + constructor; [constructor; assumption|].
      constructor; [assumption|].
      eapply Forall_impl; [exact Hall|]. intros x Hx. simpl in Hx.
      eapply cmp_lt_trans; eassumption.
    + constructor; [auto|].
      apply Forall_forall. intros x Hx.
      apply (bump_index k r x) in Hx as [->|Hx].
      * by apply cmp_gt_lt.
      * rewrite Forall_forall in Hall. by apply Hall.
Qed.

Lemma bump_sum k s : sum_Z (values (bump k s)) = 1 + sum_Z (values s).
Proof.
  unfold values, sum_Z. induction s as [|[k0 n] r IH]; csimpl; [lia|].
  destruct (cmp k k0); csimpl; [lia|lia|]. rewrite IH. lia.
Qed.

Lemma bump_positive k s :
  Forall (fun n => 1 <= n) (values s) -> Forall (fun n => 1 <= n) (values (bump k s)).
Proof.
  unfold values. induction s as [|[k0 n] r IH]; csimpl; intros Hs.
  - repeat constructor. lia.
  - apply Forall_cons in Hs as [Hn Hr].
    destruct (cmp k k0); csimpl; repeat constructor; auto; lia.
Qed.

Lemma weight_nil k : weight k [] = 0.
Proof. reflexivity. Qed.

Lemma weight_cons k k0 n s :
  weight k ((k0, n) :: s) = (if decide (k0 = k) then n else 0) + weight k s.
Proof.
  unfold weight. rewrite filter_cons. csimpl.
  destruct (decide (k0 = k)); reflexivity.
Qed.

Lemma bump_weight k s k' :
  weight k' (bump k s) = weight k' s + (if decide (k = k') then 1 else 0).
Proof.
  induction s as [|[k0 n] r IH]; cbn [bump].
  - rewrite weight_cons, weight_nil. lia.
  - destruct (cmp k k0) eqn:E.
    + apply cmp_eq_iff in E. subst k0. rewrite !weight_cons.
      destruct (decide (k = k')); lia.
    + rewrite !weight_cons. lia.
    + rewrite !weight_cons, IH. lia.
Qed.

Lemma groupby_size_index keys k : k ∈ index (groupby_size keys) <-> k ∈ keys.
Proof.
  unfold groupby_size. induction keys as [|k0 keys IH]; csimpl.
  - unfold index. csimpl. reflexivity.
  - rewrite bump_index, IH, elem_of_cons. tauto.
Qed.

Lemma groupby_size_ascending keys : ascending (index (groupby_size keys)).
Proof.
  unfold groupby_size. induction keys as [|k0 keys IH]; csimpl.
  - constructor.
  - by apply bump_ascending.
Qed.

Lemma groupby_size_sum keys :
  sum_Z (values (groupby_size keys)) = Z.of_nat (length keys).
Proof.
  unfold groupby_size. induction keys as [|k0 keys IH]; csimpl; [reflexivity|].
  rewrite bump_sum, IH. lia.
Qed.

Lemma groupby_size_positive keys :
  Forall (fun n => 1 <= n) (values (groupby_size keys)).
Proof.
  unfold groupby_size. induction keys as [|k0 keys IH]; csimpl.
  - constructor.
  - by apply bump_positive.
Qed.

Lemma groupby_size_weight keys k :
  weight k (groupby_size keys) = occurrences k keys.
Proof.
  unfold groupby_size, occurrences. induction keys as [|k0 keys IH]; cbn [foldr].
  - reflexivity.
  - rewrite bump_weight, IH, filter_cons.
    destruct (decide (k0 = k)); csimpl; lia.
Qed.

Lemma ascending_NoDup (l : list K) : ascending l -> NoDup l.
Proof.
  unfold ascending. induction 1 as [|k l Hl IH Hk]; constructor; auto.
  intros Hin. rewrite Forall_forall in Hk.
  exact (cmp_lt_irrefl k (Hk k Hin)).
Qed.

(** In a table with distinct keys the weight of a key is its entry. *)
Lemma weight_absent s k : k ∉ index s -> weight k s = 0.
Proof.
  induction s as [|[k0 n0] r IH]; intros Hk; [reflexivity|].
  unfold index in Hk. csimpl in Hk.
  apply not_elem_of_cons in Hk as [Hne Hk].
  rewrite weight_cons, decide_False by congruence. rewrite IH by assumption. lia.
Qed.

Lemma weight_entry s k n : NoDup (index s) -> (k, n) ∈ s -> weight k s = n.
Proof.
  induction s as [|[k0 n0] r IH]; intros Hnd Hin.
  - by apply elem_of_nil in Hin.
  - unfold index in Hnd. csimpl in Hnd. apply NoDup_cons in Hnd as [Hk0 Hnd].
    rewrite weight_cons.
    apply elem_of_cons in Hin as [Heq|Hin].
    + inversion Heq; subst. rewrite decide_True by reflexivity.
      rewrite weight_absent by assumption. lia.
    + assert (k0 <> k) as Hne.
      { intros ->. apply Hk0. apply list_elem_of_fmap. by exists (k, n). }
      rewrite decide_False by assumption. rewrite IH by assumption. lia.
Qed.

Lemma groupby_size_entry keys k n :
  (k, n) ∈ groupby_size keys -> n = occurrences k keys.
Proof.
  intros Hin. rewrite <- groupby_size_weight. symmetry.
  apply weight_entry; [|assumption].
  apply ascending_NoDup, groupby_size_ascending.
Qed.
End groupby.

(** ** Shape of the selection *)

Lemma dates_length installers mf :
  length (dates installers mf) = length (selected installers mf).
Proof. unfold dates. by rewrite !length_fmap. Qed.

Lemma punchcard_keys_length installers mf :
  length (zip (hours installers mf) (daysofweek installers mf))
  = length (selected installers mf).
Proof.
  unfold hours, daysofweek. rewrite length_zip_with, !length_fmap. lia.
Qed.

Lemma percentages_length installers mf :
  length (values (percentages installers mf)) = length (values (counts installers mf)).
Proof. unfold percentages, values. by rewrite !length_fmap. Qed.

Lemma Punchcard_counts installers mf :
  (Punchcard installers mf).*1 = values (counts installers mf).
Proof.
  unfold Punchcard. apply fst_zip. rewrite percentages_length. lia.
Qed.

(** ** The time series *)

(** C6. The time series has exactly one pair per distinct bucket that has
    at least one selected event: its dates are strictly ascending (hence
    pairwise distinct), a date occurs in it exactly when some selected
    event falls in that bucket, and every count is the number of selected
    events of its bucket, which is at least 1. *)
Theorem TimeSeries_sparse_ascending installers mf :
  let series := TimeSeries installers mf in
  ascending (index series) /\
  NoDup (index series) /\
  (forall b, b ∈ index series <->
     exists r, r ∈ selected installers mf /\
               fn (InstallersModel.resolution mf) (Installers.date r) = b) /\
  (forall b n, (b, n) ∈ series ->
     1 <= n /\ n = occurrences b (dates installers mf)).
Proof.
  intros series. subst series. unfold TimeSeries, downloads.
  pose proof (groupby_size_ascending (dates installers mf)) as Hasc.
  split; [exact Hasc|]. split; [by apply ascending_NoDup|]. split.
  - intros b. rewrite groupby_size_index. unfold dates.
    rewrite list_elem_of_fmap. split.
    + intros (x & -> & Hx). apply list_elem_of_fmap in Hx as (r & -> & Hr). eauto.
    + intros (r & Hr & <-). eexists. split; [reflexivity|].
      apply list_elem_of_fmap. eauto.
  - intros b n Hin. split.
    + pose proof (groupby_size_positive (dates installers mf)) as Hpos.
      rewrite Forall_forall in Hpos. apply Hpos.
      unfold values. apply list_elem_of_fmap. by exists (b, n).
    + by apply groupby_size_entry.
Qed.

(** C9. Both derived datasets conserve the selection: the counts of the
    time series add up to the number of selected events, and so do the
    counts of the emitted punchcard cells. *)
Theorem counts_conserved installers mf :
  sum_Z (values (TimeSeries installers mf))
    = Z.of_nat (length (selected installers mf)) /\
  sum_Z ((Punchcard installers mf).*1)
    = Z.of_nat (length (selected installers mf)).
Proof.
  split.
  - unfold TimeSeries, downloads. by rewrite groupby_size_sum, dates_length.
  - rewrite Punchcard_counts. unfold counts.
    by rewrite groupby_size_sum, punchcard_keys_length.
Qed.

(** ** The punchcard percentages *)

Lemma max_fold_upper (l : list Z) (c : Z) : c ∈ l -> c <= foldr Z.max 0 l.
Proof.
  induction l as [|x l IH]; intros Hin.
  - by apply elem_of_nil in Hin.
  - apply elem_of_cons in Hin as [->|Hin]; simpl; [lia|].
    specialize (IH Hin). lia.
Qed.

Lemma max_fold_nonneg (l : list Z) : 0 <= foldr Z.max 0 l.
Proof. induction l as [|x l IH]; simpl; lia. Qed.

Lemma max_fold_attained (l : list Z) :
  0 < foldr Z.max 0 l -> exists i, l !! i = Some (foldr Z.max 0 l).
Proof.
  induction l as [|x l IH]; simpl; intros Hpos; [lia|].
  destruct (Z.max_spec x (foldr Z.max 0 l)) as [[Hlt ->]|[Hle ->]].
  - destruct IH as [i Hi]; [lia|]. by exists (S i).
  - by exists 0%nat.
Qed.

Lemma series_max_fold (l : list Z) :
  l <> [] -> Forall (fun n => 1 <= n) l -> series_max l = Some (foldr Z.max 0 l).
Proof.
  induction l as [|x l IH]; intros Hne Hall; [done|].
  apply Forall_cons in Hall as [Hx Hall]. simpl.
  destruct l as [|y l].
  - simpl. f_equal. lia.
  - rewrite IH by done. reflexivity.
Qed.

Lemma truediv_positive (c m : Z) :
  0 < m -> truediv c (Some m) = Fin (Q2Qc (inject_Z c / inject_Z m)).
Proof.
  intros Hm. unfold truediv. by rewrite (proj2 (Z.eqb_neq m 0)) by lia.
Qed.

Lemma quotient_bounds (c m : Z) :
  0 <= c <= m -> 0 < m ->
  (0 <= Q2Qc (inject_Z c / inject_Z m))%Qc /\ (Q2Qc (inject_Z c / inject_Z m) <= 1)%Qc.
Proof.
  intros Hc Hm. unfold Qcle. simpl. rewrite !Qred_correct.
  destruct m as [|p|p]; try lia.
  unfold Qdiv, Qinv, Qmult, Qle, inject_Z. simpl. lia.
Qed.

Lemma quotient_one (m : Z) : 0 < m -> Q2Qc (inject_Z m / inject_Z m) = 1%Qc.
Proof.
  intros Hm. apply Qc_is_canon. simpl. rewrite !Qred_correct.
  destruct m as [|p|p]; try lia.
  unfold Qdiv, Qinv, Qmult, Qeq, inject_Z. simpl. lia.
Qed.

Lemma counts_positive installers mf :
  Forall (fun n => 1 <= n) (values (counts installers mf)).
Proof. unfold counts. apply groupby_size_positive. Qed.

Lemma Punchcard_lookup installers mf (i : nat) (c : Z) (p : float64) :
  Punchcard installers mf !! i = Some (c, p) <->
  values (counts installers mf) !! i = Some c /\
  p = truediv c (series_max (values (counts installers mf))).
Proof.
  unfold Punchcard, percentages, values.
  rewrite lookup_zip_with_Some, <- !list_fmap_compose.
  split.
  - intros (c' & p' & Heq & Hc & Hp). inversion Heq; subst c' p'.
    split; [exact Hc|].
    rewrite list_lookup_fmap in Hc. rewrite list_lookup_fmap in Hp.
    destruct (counts installers mf !! i) as [[k n]|]; simpl in *; congruence.
  - intros [Hc ->]. exists c, (truediv c (series_max (counts installers mf).*2)).
    split; [reflexivity|]. split; [exact Hc|].
    rewrite list_lookup_fmap in Hc. rewrite list_lookup_fmap.
    destruct (counts installers mf !! i) as [[k n]|]; simpl in *; congruence.
Qed.

(** C7. In the punchcard, every cell's percentage is its count divided
    by the largest count when that is positive (and 0 otherwise); every
    percentage is a number between 0 and 1, and when the largest count is
    positive some cell has percentage exactly 1. *)
Theorem percentage_normalised installers mf :
  let m := max_count installers mf in
  (forall (i : nat) (c : Z) (p : float64),
     Punchcard installers mf !! i = Some (c, p) ->
     p = (if 0 <? m then Fin (Q2Qc (inject_Z c / inject_Z m)) else Fin 0%Qc) /\
     exists q, p = Fin q /\ (0 <= q)%Qc /\ (q <= 1)%Qc) /\
  (0 < m -> exists (i : nat) (c : Z), Punchcard installers mf !! i = Some (c, Fin 1%Qc)).
Proof.
  intros m. subst m. unfold max_count.
  pose proof (counts_positive installers mf) as Hpos.
  set (cs := values (counts installers mf)) in *.
  split.
  - intros i c p Hcell. apply Punchcard_lookup in Hcell as [Hc ->]. fold cs in Hc |- *.
    assert (c ∈ cs) as Hin by (by eapply list_elem_of_lookup_2).
    assert (1 <= c) as Hc1 by (rewrite Forall_forall in Hpos; by apply Hpos).
    pose proof (max_fold_upper cs c Hin) as Hle.
    assert (cs <> []) as Hne by (intros E; rewrite E in Hin; by apply elem_of_nil in Hin).
    rewrite series_max_fold by assumption.
    rewrite truediv_positive by lia.
    rewrite (proj2 (Z.ltb_lt 0 _)) by lia.
    split; [reflexivity|]. eexists. split; [reflexivity|].
    apply quotient_bounds; lia.
  - intros Hm. destruct (max_fold_attained cs Hm) as [i Hi].
    exists i, (foldr Z.max 0 cs). apply Punchcard_lookup. fold cs.
    split; [exact Hi|].
    assert (cs <> []) as Hne by (intros E; rewrite E in Hi; discriminate).
    rewrite series_max_fold by assumption.
    rewrite truediv_positive by assumption.
    by rewrite quotient_one.
Qed.

(** ** Dates as midnight timestamps *)

Lemma era_days_ok : all_from era_day_ok 0 (Z.to_nat 146097) = true.
Proof. vm_compute. reflexivity. Qed.

Lemma all_from_spec (f : Z -> bool) (n : nat) (z0 z : Z) :
  all_from f z0 n = true -> z0 <= z < z0 + Z.of_nat n -> f z = true.
Proof.
  revert z0. induction n as [|n IH]; intros z0; [lia|]. cbn [all_from].
  intros [Hn Hrest]%andb_true_iff Hz.
  destruct (decide (z = z0)) as [->|Hne]; [done|].
  apply (IH (z0 + 1)); [done|lia].
Qed.

Lemma era_day_ok_at (doe : Z) : 0 <= doe < 146097 -> era_day_ok doe = true.
Proof. intros Hdoe. apply (all_from_spec _ _ _ _ era_days_ok). lia. Qed.

(** A day number splits into its era and its day of the era. *)
Lemma civil_from_days_era (z : Z) :
  let e := (z + 719468) / 146097 in
  let doe := z + 719468 - e * 146097 in
  civil_from_days z =
  let '(y, m, d) := civil_from_days (doe - 719468) in (y + 400 * e, m, d).
Proof.
  intros e doe. unfold civil_from_days.
  replace (doe - 719468 + 719468) with doe by lia.
  assert (0 <= doe < 146097) as Hdoe by (subst doe e; Z.div_mod_to_equations; lia).
  rewrite (Z.div_small doe 146097) by lia.
  fold e. fold doe. replace (doe - 0 * 146097) with doe by lia.
  cbv zeta.
  match goal with |- context [if ?c then _ else _] => destruct c end;
    f_equal; f_equal; lia.
Qed.

Lemma days_from_civil_era (y m d e : Z) :
  days_from_civil (y + 400 * e) m d = days_from_civil y m d + 146097 * e.
Proof.
  unfold days_from_civil. destruct (m <=? 2); cbv zeta; Z.div_mod_to_equations; lia.
Qed.

Lemma is_leap_era (y e : Z) : is_leap (y + 400 * e) = is_leap y.
Proof.
  unfold is_leap.
  replace ((y + 400 * e) mod 4) with (y mod 4) by (Z.div_mod_to_equations; lia).
  replace ((y + 400 * e) mod 100) with (y mod 100) by (Z.div_mod_to_equations; lia).
  replace ((y + 400 * e) mod 400) with (y mod 400) by (Z.div_mod_to_equations; lia).
  reflexivity.
Qed.

(** The civil date of a day number is a date of the calendar, and the
    day number of that date is the number one started from. *)
Lemma civil_from_days_spec (z : Z) :
  let '(y, m, d) := civil_from_days z in
  calendar_triple y m d = true /\ days_from_civil y m d = z.
Proof.
  rewrite civil_from_days_era. cbv zeta.
  set (e := (z + 719468) / 146097). set (doe := z + 719468 - e * 146097).
  assert (0 <= doe < 146097) as Hdoe by (subst doe e; Z.div_mod_to_equations; lia).
  pose proof (era_day_ok_at doe Hdoe) as Hok. unfold era_day_ok in Hok.
  destruct (civil_from_days (doe - 719468)) as [[y m] d].
  apply andb_true_iff in Hok as [Hcal Hday]. apply Z.eqb_eq in Hday.
  split.
  - unfold calendar_triple, days_in_month in *. by rewrite is_leap_era.
  - rewrite days_from_civil_era, Hday. lia.
Qed.

Lemma date_of_Timestamp_calendar (x : Timestamp) : calendar_date (date_of_Timestamp x).
Proof.
  unfold calendar_date, date_of_Timestamp, year, month, day. cbn [year_of month_of day_of].
  pose proof (civil_from_days_spec (x / seconds_per_day)) as Hspec.
  destruct (civil_from_days (x / seconds_per_day)) as [[y m] d]. cbn [fst snd].
  destruct Hspec as [Hcal _]. unfold calendar_triple in Hcal.
  repeat (apply andb_true_iff in Hcal as [Hcal ?]). lia.
Qed.

(** The midnight of the date of a timestamp is the start of its day. *)
Lemma Timestamp_of_date_of_Timestamp (x : Timestamp) :
  Timestamp_of_date (date_of_Timestamp x) = x / seconds_per_day * seconds_per_day.
Proof.
  unfold Timestamp_of_date, date_of_Timestamp, year, month, day.
  cbn [year_of month_of day_of].
  pose proof (civil_from_days_spec (x / seconds_per_day)) as Hspec.
  destruct (civil_from_days (x / seconds_per_day)) as [[y m] d]. cbn [fst snd].
  destruct Hspec as [_ ->]. reflexivity.
Qed.

Lemma month_cases (m : Z) :
  1 <= m <= 12 ->
  m = 1 \/ m = 2 \/ m = 3 \/ m = 4 \/ m = 5 \/ m = 6 \/
  m = 7 \/ m = 8 \/ m = 9 \/ m = 10 \/ m = 11 \/ m = 12.
Proof. lia. Qed.

Ltac split_month H :=
  apply month_cases in H; repeat (destruct H as [H | H]); subst.

Lemma date_lt_cases (a b : pydate) :
  cmp a b = Lt ->
  year_of a < year_of b \/
  (year_of a = year_of b /\ month_of a < month_of b) \/
  (year_of a = year_of b /\ month_of a = month_of b /\ day_of a < day_of b).
Proof.
  unfold cmp, pydate_cmp.
  destruct (Z.compare_spec (year_of a) (year_of b)); [|lia|congruence].
  destruct (Z.compare_spec (month_of a) (month_of b)); [|lia|congruence].
  destruct (Z.compare_spec (day_of a) (day_of b)); [congruence|lia|congruence].
Qed.

(** The coercion of a date to its midnight preserves the order of the
    dates of the calendar. *)
Lemma Timestamp_of_date_lt (a b : pydate) :
  calendar_date a -> calendar_date b -> cmp a b = Lt ->
  Timestamp_of_date a < Timestamp_of_date b.
Proof.
  destruct a as [y1 m1 d1], b as [y2 m2 d2].
  unfold calendar_date, Timestamp_of_date, seconds_per_day. simpl.
  intros (Hm1 & Hd1) (Hm2 & Hd2) Hlt.
  apply date_lt_cases in Hlt. simpl in Hlt.
  apply Z.mul_lt_mono_pos_r; [lia|].
  unfold days_in_month, is_leap in *.
  split_month Hm1; split_month Hm2; cbn in Hd1, Hd2 |- *;
    unfold days_from_civil; cbn;
    repeat match goal with
    | H : context [if ?c then _ else _] |- _ => destruct c eqn:?
    end; try lia; Z.div_mod_to_equations; lia.
Qed.

Lemma Timestamp_of_date_mono (a b : pydate) :
  calendar_date a -> calendar_date b -> date_le a b ->
  Timestamp_of_date a <= Timestamp_of_date b.
Proof.
  intros Ha Hb Hle. unfold date_le in Hle.
  destruct (cmp a b) eqn:E; [| |congruence].
  - apply cmp_eq_iff in E. subst. lia.
  - pose proof (Timestamp_of_date_lt a b Ha Hb E). lia.
Qed.

(** The start of the range is a comparison of dates: a timestamp is
    not before the midnight of [d] exactly when its date is not before
    [d]. *)
Lemma midnight_le_iff (d : pydate) (x : Timestamp) :
  calendar_date d ->
  Timestamp_of_date d <= x <-> date_le d (date_of_Timestamp x).
Proof.
  intros Hd. pose proof (date_of_Timestamp_calendar x) as Hx.
  pose proof (Timestamp_of_date_of_Timestamp x) as Hday.
  assert (x / seconds_per_day * seconds_per_day <= x
          < x / seconds_per_day * seconds_per_day + seconds_per_day) as Hfloor
    by (unfold seconds_per_day; Z.div_mod_to_equations; lia).
  split.
  - intros Hle. unfold date_le. intros Hgt.
    assert (cmp (date_of_Timestamp x) d = Lt) as Hlt by (by apply cmp_gt_lt).
    pose proof (Timestamp_of_date_lt _ _ Hx Hd Hlt) as Hstrict.
    unfold Timestamp_of_date in Hstrict, Hle, Hday.
    unfold seconds_per_day in *. nia.
  - intros Hle. pose proof (Timestamp_of_date_mono _ _ Hd Hx Hle). lia.
Qed.

(** The end of the range is not: a timestamp is not after the midnight
    of [d] exactly when its date is before [d] or it is that midnight. *)
Lemma le_midnight_iff (d : pydate) (x : Timestamp) :
  calendar_date d ->
  x <= Timestamp_of_date d <->
  cmp (date_of_Timestamp x) d = Lt \/ x = Timestamp_of_date d.
Proof.
  intros Hd. pose proof (date_of_Timestamp_calendar x) as Hx.
  pose proof (Timestamp_of_date_of_Timestamp x) as Hday.
  assert (x / seconds_per_day * seconds_per_day <= x
          < x / seconds_per_day * seconds_per_day + seconds_per_day) as Hfloor
    by (unfold seconds_per_day; Z.div_mod_to_equations; lia).
  split.
  - intros Hle. destruct (cmp (date_of_Timestamp x) d) eqn:E.
    + apply cmp_eq_iff in E. subst d. right. lia.
    + by left.
    + apply cmp_gt_lt in E. pose proof (Timestamp_of_date_lt _ _ Hd Hx E). lia.
  - intros [Hlt| ->]; [|lia].
    pose proof (Timestamp_of_date_lt _ _ Hx Hd Hlt) as Hstrict.
    unfold Timestamp_of_date in Hstrict, Hday |- *.
    unfold seconds_per_day in *. nia.
Qed.

(** ** The bucket dates *)

(** The bucket of a timestamp is a date of the calendar at every
    resolution, so the [datetime.date] constructor is called within its
    domain. *)
Lemma fn_calendar (resolution : Resolution) (x : Timestamp) :
  calendar_date (fn resolution x).
Proof.
  pose proof (date_of_Timestamp_calendar x) as [Hm Hd].
  cbn [date_of_Timestamp year_of month_of day_of] in Hm, Hd.
  destruct resolution; unfold calendar_date, fn; cbn [year_of month_of day_of].
  - split; assumption.
  - split; [assumption|]. lia.
  - split; [lia|]. vm_compute. split; discriminate.
Qed.

(** C5. For every selected event, the bucket date of the time series is
    obtained from the event's timestamp by the resolution rule: daily gives
    (year, month, day), monthly gives (year, month, 1), yearly gives
    (year, 1, 1); the bucket is a date of the calendar and is the key the
    event is grouped under, so it is one of the dates of the series. *)
Theorem bucket_date_rule installers mf (i : nat) (r : Installers.row) :
  selected installers mf !! i = Some r ->
  let x := Installers.date r in
  let bucket_date :=
    match InstallersModel.resolution mf with
    | daily => datetime_date (year x) (month x) (day x)
    | monthly => datetime_date (year x) (month x) 1
    | yearly => datetime_date (year x) 1 1
    end in
  dates installers mf !! i = Some bucket_date /\
  calendar_date bucket_date /\
  bucket_date ∈ index (TimeSeries installers mf).
Proof.
  intros Hr x bucket_date.
  assert (bucket_date = fn (InstallersModel.resolution mf) x) as Hfn.
  { subst bucket_date. by destruct (InstallersModel.resolution mf). }
  assert (dates installers mf !! i = Some bucket_date) as Hd.
  { unfold dates. rewrite !list_lookup_fmap, Hr. simpl. by rewrite Hfn. }
  split; [exact Hd|]. split; [rewrite Hfn; apply fn_calendar|].
  unfold TimeSeries, downloads. apply groupby_size_index.
  by eapply list_elem_of_lookup_2.
Qed.

(** ** The filter pass *)

Lemma filter_all (P : Installers.row -> Prop) `{!forall r, Decision (P r)}
    (df : DataFrame) :
  (forall r, P r) -> filter P df = df.
Proof.
  intros HP. induction df as [|r df IH]; [done|].
  rewrite filter_cons_True by auto. by rewrite IH.
Qed.

Lemma filter_weaken (P Q : Installers.row -> Prop)
    `{!forall r, Decision (P r), !forall r, Decision (Q r)} (df : DataFrame) :
  (forall r, r ∈ df -> P r -> Q r) -> filter P df `sublist_of` filter Q df.
Proof.
  induction df as [|r df IH]; intros HPQ; [done|].
  assert (filter P df `sublist_of` filter Q df) as Hrest.
  { apply IH. intros r' Hr'. apply HPQ. by right. }
  rewrite !filter_cons. destruct (decide (P r)) as [HP|HP].
  - rewrite decide_True by (apply HPQ; [left|done]). by constructor.
  - destruct (decide (Q r)); [by constructor|assumption].
Qed.

Lemma step_installer_filter mf df : step_installer mf df = filter (keep_installer mf) df.
Proof.
  unfold step_installer, keep_installer. simpl. case_decide as Hi.
  - apply list_filter_iff. intros r. tauto.
  - symmetry. apply filter_all. intros r Hne. contradiction.
Qed.

Lemma step_platform_filter mf df : step_platform mf df = filter (keep_platform mf) df.
Proof.
  unfold step_platform, keep_platform. simpl. case_decide as Hi.
  - apply list_filter_iff. intros r. tauto.
  - symmetry. apply filter_all. intros r Hne. contradiction.
Qed.

Lemma step_arch_filter mf df : step_arch mf df = filter (keep_arch mf) df.
Proof.
  unfold step_arch, keep_arch. simpl. case_decide as Hi.
  - apply list_filter_iff. intros r. tauto.
  - symmetry. apply filter_all. intros r Hne. contradiction.
Qed.

Lemma filter_steps_are_filters mf : Forall is_filter (filter_steps mf).
Proof.
  unfold filter_steps. repeat constructor.
  - exists (keep_start mf), _. reflexivity.
  - exists (keep_end mf), _. reflexivity.
  - exists (keep_installer mf), _. apply step_installer_filter.
  - exists (keep_platform mf), _. apply step_platform_filter.
  - exists (keep_arch mf), _. apply step_arch_filter.
Qed.

Lemma filters_commute (f g : DataFrame -> DataFrame) (df : DataFrame) :
  is_filter f -> is_filter g -> f (g df) = g (f df).
Proof.
  intros (P & decP & HP) (Q & decQ & HQ).
  rewrite (HQ df), (HP df), HP, HQ, !list_filter_filter.
  apply list_filter_iff. intros r. tauto.
Qed.

Lemma run_steps_permutation (steps steps' : list (DataFrame -> DataFrame)) :
  steps ≡ₚ steps' -> Forall is_filter steps ->
  forall df, run_steps steps df = run_steps steps' df.
Proof.
  unfold run_steps. induction 1 as [|f l l' Hp IH|f g l|l1 l2 l3 H12 IH12 H23 IH23];
    intros Hall df; simpl.
  - reflexivity.
  - apply Forall_cons in Hall as [_ Hall]. by apply IH.
  - apply Forall_cons in Hall as [Hg Hall]. apply Forall_cons in Hall as [Hf _].
    by rewrite (filters_commute f g df).
  - rewrite IH12 by assumption. apply IH23. by rewrite <- H12.
Qed.

Lemma selected_filter installers mf :
  selected installers mf =
  filter (fun r => keep_start mf r /\ keep_end mf r /\ keep_installer mf r /\
                   keep_platform mf r /\ keep_arch mf r) installers.
Proof.
  unfold selected, step_start, step_end.
  rewrite step_arch_filter, step_platform_filter, step_installer_filter.
  rewrite !list_filter_filter. apply list_filter_iff. intros r. tauto.
Qed.

Lemma selected_weaken installers mf mf' :
  (forall r, r ∈ installers -> keep_start mf r -> keep_start mf' r) ->
  (forall r, keep_end mf r -> keep_end mf' r) ->
  (forall r, keep_installer mf r -> keep_installer mf' r) ->
  (forall r, keep_platform mf r -> keep_platform mf' r) ->
  (forall r, keep_arch mf r -> keep_arch mf' r) ->
  selected installers mf `sublist_of` selected installers mf'.
Proof.
  intros Hs He Hi Hp Ha. rewrite !selected_filter.
  apply filter_weaken. intros r Hr (? & ? & ? & ? & ?). auto 10.
Qed.

Lemma Timestamp_min_lower (l : list Timestamp) (lo x : Timestamp) :
  Timestamp_min l = Some lo -> x ∈ l -> lo <= x.
Proof.
  revert lo. induction l as [|y l IH]; intros lo Hmin Hx.
  - by apply elem_of_nil in Hx.
  - cbn [Timestamp_min foldr] in Hmin. fold (Timestamp_min l) in Hmin.
    apply elem_of_cons in Hx as [->|Hx].
    + destruct (Timestamp_min l); injection Hmin as <-; lia.
    + destruct (Timestamp_min l) as [m|] eqn:Em.
      * injection Hmin as <-. specialize (IH m eq_refl Hx). lia.
      * destruct l; [by apply elem_of_nil in Hx|discriminate Em].
Qed.

(** The default start lets every event of the log through. *)
Lemma default_start_keeps_all installers mf0 mf r :
  InstallersModel_new installers = Some mf0 ->
  r ∈ installers ->
  keep_start (InstallersModel.set_start (InstallersModel.start mf0) mf) r.
Proof.
  unfold InstallersModel_new. intros Hnew Hr.
  destruct (Timestamp_min (Installers.date <$> installers)) as [lo|] eqn:Hlo;
    [|discriminate].
  destruct (Timestamp_max (Installers.date <$> installers)) as [hi|];
    [|discriminate].
  cbn [mbind option_bind] in Hnew. injection Hnew as <-.
  unfold keep_start. cbn [InstallersModel.start InstallersModel.set_start].
  rewrite Timestamp_of_date_of_Timestamp.
  assert (lo <= Installers.date r) as Hle.
  { apply (Timestamp_min_lower _ _ _ Hlo). apply list_elem_of_fmap. eauto. }
  unfold seconds_per_day. Z.div_mod_to_equations. lia.
Qed.

(** C4. The selected events are exactly the events of the log that pass
    all the filter predicates (date range, installer, platform,
    architecture), in log order; running the filter steps in any order
    selects the same events; and relaxing one filter selects a
    super-sequence of the events selected before: a category set back to
    "All", the date range widened to one that contains it, the start set
    back to its default, the end set back to its default from an end that
    the end picker offers (one not after that default). *)
Theorem filter_conjunction installers mf :
  selected installers mf =
    filter (fun r => keep_start mf r /\ keep_end mf r /\ keep_installer mf r /\
                     keep_platform mf r /\ keep_arch mf r) installers /\
  (forall steps, steps ≡ₚ filter_steps mf ->
     run_steps steps installers = selected installers mf) /\
  selected installers mf
    `sublist_of` selected installers (InstallersModel.set_installer "All" mf) /\
  selected installers mf
    `sublist_of` selected installers (InstallersModel.set_platform "All" mf) /\
  selected installers mf
    `sublist_of` selected installers (InstallersModel.set_arch "All" mf) /\
  (forall start' end',
     calendar_date start' -> calendar_date (InstallersModel.start mf) ->
     calendar_date (InstallersModel.end_ mf) -> calendar_date end' ->
     date_le start' (InstallersModel.start mf) ->
     date_le (InstallersModel.end_ mf) end' ->
     selected installers mf
       `sublist_of` selected installers
          (InstallersModel.set_start start' (InstallersModel.set_end end' mf))) /\
  (forall mf0,
     InstallersModel_new installers = Some mf0 ->
     selected installers mf
       `sublist_of` selected installers
          (InstallersModel.set_start (InstallersModel.start mf0) mf) /\
     (calendar_date (InstallersModel.end_ mf) ->
      date_le (InstallersModel.end_ mf) (InstallersModel.end_ mf0) ->
      selected installers mf
        `sublist_of` selected installers
           (InstallersModel.set_end (InstallersModel.end_ mf0) mf))).
Proof.
  split; [apply selected_filter|]. split.
  { intros steps Hperm.
    rewrite <- (run_steps_permutation (filter_steps mf) steps); [reflexivity|done|].
    apply filter_steps_are_filters. }
  split; [|split; [|split; [|split]]].
  - apply selected_weaken; try done. intros r _ Hne. by destruct Hne.
  - apply selected_weaken; try done. intros r _ Hne. by destruct Hne.
  - apply selected_weaken; try done. intros r _ Hne. by destruct Hne.
  - intros start' end' Hvs Hv1 Hv2 Hve Hs He.
    apply selected_weaken; try done.
    + unfold keep_start. simpl. intros r _ Hr.
      pose proof (Timestamp_of_date_mono _ _ Hvs Hv1 Hs). lia.
    + unfold keep_end. simpl. intros r Hr.
      pose proof (Timestamp_of_date_mono _ _ Hv2 Hve He). lia.
  - intros mf0 Hnew. split.
    + apply selected_weaken; try done.
      intros r Hr _. by apply (default_start_keeps_all installers mf0).
    + intros Hv He. apply selected_weaken; try done.
      unfold keep_end. simpl. intros r Hr.
      assert (calendar_date (InstallersModel.end_ mf0)) as Hv0.
      { unfold InstallersModel_new in Hnew.
        destruct (Timestamp_min _); [|discriminate].
        destruct (Timestamp_max _); [|discriminate].
        cbn [mbind option_bind] in Hnew. injection Hnew as <-.
        apply date_of_Timestamp_calendar. }
      pose proof (Timestamp_of_date_mono _ _ Hv Hv0 He). lia.
Qed.

(** ** The recomputation as a state change *)

Lemma update_source_written (d : gmap string Column) (s : ColumnDataSource)
    (k : string) (c : Column) :
  d !! k = Some c -> data (update_source d s) !! k = Some c.
Proof. intros Hk. unfold update_source. cbn [data]. by apply lookup_union_Some_l. Qed.

Lemma update_source_kept (d : gmap string Column) (s : ColumnDataSource) (k : string) :
  d !! k = None -> data (update_source d s) !! k = data s !! k.
Proof. intros Hk. unfold update_source. cbn [data]. by apply lookup_union_r. Qed.

Lemma update_source_twice (d : gmap string Column) (s : ColumnDataSource) :
  update_source d (update_source d s) = update_source d s.
Proof.
  unfold update_source. cbn [data]. f_equal.
  by rewrite (assoc_L (∪)), (idemp_L (∪) d).
Qed.

(** The four columns a recomputation writes hold the two derived
    datasets of the current form, whatever the sources held before. *)
Lemma update_data_columns installers self :
  let app := update_data installers self in
  let mf := modelform self in
  data (downloads_source app) !! "dates"%string
    = Some (Dates (index (TimeSeries installers mf))) /\
  data (downloads_source app) !! "downloads"%string
    = Some (Ints (values (TimeSeries installers mf))) /\
  data (punchcard_source app) !! "counts"%string
    = Some (Ints ((Punchcard installers mf).*1)) /\
  data (punchcard_source app) !! "percentages"%string
    = Some (Floats ((Punchcard installers mf).*2)).
Proof.
  intros app mf. subst app mf. unfold update_data.
  cbn [downloads_source punchcard_source].
  rewrite Punchcard_counts.
  assert ((Punchcard installers (modelform self)).*2
          = values (percentages installers (modelform self))) as ->.
  { unfold Punchcard. apply snd_zip. rewrite percentages_length. lia. }
  repeat split; apply update_source_written.
  - by rewrite lookup_insert_eq.
  - rewrite lookup_insert_ne by done. by rewrite lookup_insert_eq.
  - by rewrite lookup_insert_eq.
  - rewrite lookup_insert_ne by done. by rewrite lookup_insert_eq.
Qed.

Lemma update_data_downloads_kept installers self (k : string) :
  k <> "dates"%string -> k <> "downloads"%string ->
  data (downloads_source (update_data installers self)) !! k
    = data (downloads_source self) !! k.
Proof.
  intros H1 H2. unfold update_data. cbn [downloads_source].
  apply update_source_kept.
  rewrite !lookup_insert_ne by done. apply lookup_empty.
Qed.

Lemma update_data_punchcard_kept installers self (k : string) :
  k <> "counts"%string -> k <> "percentages"%string ->
  data (punchcard_source (update_data installers self)) !! k
    = data (punchcard_source self) !! k.
Proof.
  intros H1 H2. unfold update_data. cbn [punchcard_source].
  apply update_source_kept.
  rewrite !lookup_insert_ne by done. apply lookup_empty.
Qed.

Lemma input_change_punchcard_kept installers self (k : string) :
  k <> "counts"%string -> k <> "percentages"%string ->
  data (punchcard_source (input_change installers self)) !! k
    = data (punchcard_source self) !! k.
Proof.
  intros H1 H2. unfold input_change. cbn [punchcard_source].
  by apply update_data_punchcard_kept.
Qed.

Lemma session_punchcard_kept installers changes self (k : string) :
  k <> "counts"%string -> k <> "percentages"%string ->
  data (punchcard_source (session installers changes self)) !! k
    = data (punchcard_source self) !! k.
Proof.
  intros H1 H2. unfold session. revert self.
  induction changes as [|mf changes IH]; intros self; cbn [foldl]; [reflexivity|].
  rewrite IH. by rewrite input_change_punchcard_kept.
Qed.



Lemma create_labels installers app :
  create installers = Some app ->
  data (punchcard_source app) !! "hours"%string = Some (Strs hour_labels) /\
  data (punchcard_source app) !! "days"%string = Some (Strs day_labels).
Proof.
  unfold create. intros Hc.
  destruct (InstallersModel_new installers) as [mf|]; [|discriminate].
  cbn [mbind option_bind] in Hc. injection Hc as <-.
  unfold update_data, fresh_applet. cbn [punchcard_source].
  split;
    (rewrite update_source_kept
       by (rewrite !lookup_insert_ne by done; apply lookup_empty));
    cbn [data]; rewrite !lookup_insert_ne by done; by rewrite lookup_insert_eq.
Qed.

(** C8. The recomputation is a function of the log and of the form
    alone: two applets with the same form end with the same four computed
    columns whatever their sources held before, these columns are the two
    derived datasets of that log and form, and recomputing a second time
    changes nothing. *)
Theorem update_data_pure installers (self self' : DownloadsApp) :
  modelform self = modelform self' ->
  let app := update_data installers self in
  let app' := update_data installers self' in
  (data (downloads_source app) !! "dates"%string
     = data (downloads_source app') !! "dates"%string /\
   data (downloads_source app) !! "downloads"%string
     = data (downloads_source app') !! "downloads"%string /\
   data (punchcard_source app) !! "counts"%string
     = data (punchcard_source app') !! "counts"%string /\
   data (punchcard_source app) !! "percentages"%string
     = data (punchcard_source app') !! "percentages"%string) /\
  (data (downloads_source app) !! "dates"%string
     = Some (Dates (index (TimeSeries installers (modelform self)))) /\
   data (downloads_source app) !! "downloads"%string
     = Some (Ints (values (TimeSeries installers (modelform self)))) /\
   data (punchcard_source app) !! "counts"%string
     = Some (Ints ((Punchcard installers (modelform self)).*1)) /\
   data (punchcard_source app) !! "percentages"%string
     = Some (Floats ((Punchcard installers (modelform self)).*2))) /\
  update_data installers app = app.
Proof.
  intros Hmf app app'.
  destruct (update_data_columns installers self) as (D1 & D2 & D3 & D4).
  destruct (update_data_columns installers self') as (E1 & E2 & E3 & E4).
  rewrite <- Hmf in E1, E2, E3, E4.
  split; [|split].
  - subst app app'. by rewrite D1, D2, D3, D4, E1, E2, E3, E4.
  - by subst app.
  - subst app. unfold update_data.
    cbn [modelform downloads_source punchcard_source downloads_plot punchcard_plot].
    rewrite !update_source_twice. reflexivity.
Qed.

(** C10. A recomputation writes the [dates] and [downloads] columns of
    the time-series source and the [counts] and [percentages] columns of
    the punchcard source and leaves every other column of either source as
    it was; the [hours] and [days] label columns keep, through any sequence
    of recomputations, the 168 hour-major grid labels set at creation. *)
Theorem recomputation_frame installers :
  (forall self,
     let app := update_data installers self in
     data (downloads_source app) !! "dates"%string
       = Some (Dates (index (TimeSeries installers (modelform self)))) /\
     data (downloads_source app) !! "downloads"%string
       = Some (Ints (values (TimeSeries installers (modelform self)))) /\
     data (punchcard_source app) !! "counts"%string
       = Some (Ints ((Punchcard installers (modelform self)).*1)) /\
     data (punchcard_source app) !! "percentages"%string
       = Some (Floats ((Punchcard installers (modelform self)).*2))) /\
  (forall self (k : string),
     k <> "dates"%string -> k <> "downloads"%string ->
     data (downloads_source (update_data installers self)) !! k
       = data (downloads_source self) !! k) /\
  (forall self (k : string),
     k <> "counts"%string -> k <> "percentages"%string ->
     data (punchcard_source (update_data installers self)) !! k
       = data (punchcard_source self) !! k) /\
  (forall app changes,
     create installers = Some app ->
     let app' := session installers changes app in
     data (punchcard_source app') !! "hours"%string = Some (Strs hour_labels) /\
     data (punchcard_source app') !! "days"%string = Some (Strs day_labels)) /\
  hour_labels = (fun cell : Z * Z => pretty cell.1) <$> grid /\
  day_labels = (fun cell : Z * Z => day_name cell.2) <$> grid /\
  length grid = 168%nat.
Proof.
  split; [intros self; apply update_data_columns|].
  split; [intros self k; apply update_data_downloads_kept|].
  split; [intros self k; apply update_data_punchcard_kept|].
  split.
  - intros app changes Hc app'. subst app'.
    rewrite !session_punchcard_kept by done. by apply (create_labels installers).
  - split; [|split]; vm_compute; reflexivity.
Qed.

(** ** The cells the punchcard emits *)

Lemma hour_range (x : Timestamp) : 0 <= hour x < 24.
Proof. unfold hour, seconds_per_day. Z.div_mod_to_equations. lia. Qed.

Lemma dayofweek_range (x : Timestamp) : 0 <= dayofweek x < 7.
Proof. unfold dayofweek. apply Z.mod_pos_bound. lia. Qed.

Lemma grid_spec (h d : Z) : (h, d) ∈ grid <-> 0 <= h < 24 /\ 0 <= d < 7.
Proof.
  unfold grid. rewrite list_elem_of_bind. split.
  - intros (h' & Hd & Hh). apply elem_of_seqZ in Hh.
    apply list_elem_of_fmap in Hd as (d' & Heq & Hd). apply elem_of_seqZ in Hd.
    inversion Heq; subst. lia.
  - intros [Hh Hd]. exists h. split; [|apply elem_of_seqZ; lia].
    apply list_elem_of_fmap. exists d. split; [reflexivity|apply elem_of_seqZ; lia].
Qed.

Lemma bump_length {K} `{Cmp K} (k : K) (s : Series K Z) :
  (length (bump k s) <= S (length s))%nat.
Proof.
  induction s as [|[k0 n] r IH]; cbn [bump length]; [lia|].
  destruct (cmp k k0); cbn [length]; lia.
Qed.

Lemma groupby_size_length {K} `{Cmp K} (keys : list K) :
  (length (groupby_size keys) <= length keys)%nat.
Proof.
  unfold groupby_size. induction keys as [|k keys IH]; cbn [foldr length]; [lia|].
  pose proof (bump_length k (foldr bump [] keys)). lia.
Qed.

(** What the emitted cells do satisfy: they are the (hour, weekday)
    combinations that occur among the selected events, each a cell of the
    grid, in hour-major order, and never more than the selected events. *)
Lemma Punchcard_cells installers mf :
  ascending (index (counts installers mf)) /\
  (forall k, k ∈ index (counts installers mf) -> k ∈ grid) /\
  length (Punchcard installers mf) = length (counts installers mf) /\
  (length (Punchcard installers mf) <= length (selected installers mf))%nat.
Proof.
  split; [apply groupby_size_ascending|]. split; [|split].
  - intros [h d] Hk. unfold counts in Hk. rewrite groupby_size_index in Hk.
    apply elem_of_zip_with in Hk as (h' & d' & Heq & Hh & Hd).
    inversion Heq; subst h' d'. apply grid_spec.
    unfold hours in Hh. unfold daysofweek in Hd.
    apply list_elem_of_fmap in Hh as (x & -> & _).
    apply list_elem_of_fmap in Hd as (y & -> & _).
    split; [apply hour_range|apply dayofweek_range].
  - rewrite <- (length_fmap fst (Punchcard installers mf)), Punchcard_counts.
    unfold values. by rewrite length_fmap.
  - rewrite <- (length_fmap fst (Punchcard installers mf)), Punchcard_counts.
    unfold values. rewrite length_fmap. unfold counts.
    rewrite <- punchcard_keys_length. apply groupby_size_length.
Qed.

(** An inverted date range selects nothing. *)
Lemma inverted_range_empty installers mf :
  calendar_date (InstallersModel.start mf) -> calendar_date (InstallersModel.end_ mf) ->
  cmp (InstallersModel.end_ mf) (InstallersModel.start mf) = Lt ->
  selected installers mf = [].
Proof.
  intros Hs He Hlt. pose proof (Timestamp_of_date_lt _ _ He Hs Hlt) as Hstrict.
  rewrite selected_filter.
  induction installers as [|r df IH]; [done|].
  rewrite filter_cons_False; [exact IH|].
  unfold keep_start, keep_end. intros (H1 & H2 & _). lia.
Qed.

(** An empty selection gives an empty time series and no punchcard
    cell; the divisor of the percentages is then undefined. *)
Lemma empty_selection installers mf :
  selected installers mf = [] ->
  TimeSeries installers mf = [] /\
  Punchcard installers mf = [] /\
  series_max (values (counts installers mf)) = None.
Proof.
  intros Hsel.
  assert (counts installers mf = []) as Hc.
  { unfold counts, hours, daysofweek. by rewrite Hsel. }
  split; [unfold TimeSeries, downloads, dates; by rewrite Hsel|].
  split; [unfold Punchcard, percentages; by rewrite Hc|].
  by rewrite Hc.
Qed.

(** ** Where the code departs from the intended datasets *)

(** The default form of a log spans the dates of its first and last event. *)
Example three_events_defaults :
  InstallersModel_new three_events
  = Some (form monthly (datetime_date 2024 1 1) (datetime_date 2024 2 15)).
Proof. vm_compute. reflexivity. Qed.

Example two_cells_defaults :
  InstallersModel_new two_cells
  = Some (form monthly (datetime_date 2024 1 1) (datetime_date 2024 1 2)).
Proof. vm_compute. reflexivity. Qed.

(** C1. On a log with events in two (hour, weekday) combinations and
    the default form, the recomputation emits two punchcard cells, not 168:
    the combinations without event get no cell, and the emitted counts no
    longer line up with the 168 grid labels (the count of Tuesday 00h sits
    at the grid position of Monday 00h, that of Monday 10h at the position
    of Tuesday 00h). *)
Theorem punchcard_not_dense :
  let mf := form monthly (datetime_date 2024 1 1) (datetime_date 2024 1 2) in
  selected two_cells mf = two_cells /\
  counts two_cells mf = [((0, 1), 1); ((10, 0), 2)] /\
  length (Punchcard two_cells mf) = 2%nat /\
  length (Punchcard two_cells mf) <> length grid /\
  (exists app, create two_cells = Some app /\
     data (punchcard_source app) !! "counts"%string = Some (Ints [1; 2]) /\
     column_length <$> data (punchcard_source app) !! "hours"%string = Some 168%nat) /\
  grid !! 0%nat = Some (0, 0) /\ grid !! 1%nat = Some (0, 1).
Proof.
  cbv zeta. split; [vm_compute; reflexivity|].
  split; [vm_compute; reflexivity|].
  split; [vm_compute; reflexivity|].
  split; [vm_compute; discriminate|].
  split; [|split; vm_compute; reflexivity].
  destruct (create two_cells) as [app|] eqn:Happ; [|vm_compute in Happ; discriminate].
  exists app. split; [reflexivity|].
  vm_compute in Happ. injection Happ as <-.
  split; vm_compute; reflexivity.
Qed.

(** C2. With an inverted date range nothing is selected and no error
    arises; the time series is empty, but the punchcard has no cell at all
    instead of 168 cells of count and percentage 0, and the divisor of the
    percentages, the largest count, is undefined with no guard around the
    division. *)
Theorem empty_selection_punchcard :
  let mf := form monthly (datetime_date 2024 1 2) (datetime_date 2024 1 1) in
  selected two_cells mf = [] /\
  TimeSeries two_cells mf = [] /\
  Punchcard two_cells mf = [] /\
  length (Punchcard two_cells mf) <> length grid /\
  series_max (values (counts two_cells mf)) = None.
Proof.
  cbv zeta. repeat split; try (vm_compute; reflexivity). vm_compute. discriminate.
Qed.

(** C3. The end of the date range is compared as a timestamp: an event
    at noon of the end date has its calendar date inside the range and is
    dropped all the same, so that the default form of a log loses the
    log's last event. *)
Theorem end_date_excluded :
  let mf := form monthly (datetime_date 2024 1 1) (datetime_date 2024 2 15) in
  InstallersModel_new three_events = Some mf /\
  (exists r, three_events !! 2%nat = Some r /\
     date_of_Timestamp (Installers.date r) = datetime_date 2024 2 15 /\
     date_le (InstallersModel.start mf) (date_of_Timestamp (Installers.date r)) /\
     date_le (date_of_Timestamp (Installers.date r)) (InstallersModel.end_ mf) /\
     r ∉ selected three_events mf) /\
  TimeSeries three_events mf = [(datetime_date 2024 1 1, 2)].
Proof.
  cbv zeta. split; [vm_compute; reflexivity|]. split.
  - eexists. split; [reflexivity|].
    split; [vm_compute; reflexivity|].
    split; [vm_compute; discriminate|].
    split; [vm_compute; discriminate|].
    rewrite selected_filter, list_elem_of_filter.
    intros [(_ & He & _) _]. vm_compute in He. by apply He.
  - vm_compute. reflexivity.
Qed.

(** Every event later than the first instant of the end date is dropped,
    whatever the log and the other filters. *)
Lemma after_midnight_dropped installers mf r :
  Timestamp_of_date (InstallersModel.end_ mf) < Installers.date r ->
  r ∉ selected installers mf.
Proof.
  intros Hlate. rewrite selected_filter, list_elem_of_filter.
  unfold keep_end. intros [(_ & He & _) _]. lia.
Qed.

(** ** The properties at work on the sample logs *)

(** With an end date one day after the last event the three events
    are all selected: two monthly buckets, and one event less in each once
    installer A alone is asked for. *)
Example monthly_series :
  TimeSeries three_events (form monthly (datetime_date 2024 1 1) (datetime_date 2024 2 16))
  = [(datetime_date 2024 1 1, 2); (datetime_date 2024 2 1, 1)].
Proof. vm_compute. reflexivity. Qed.

Example monthly_series_of_A :
  TimeSeries three_events
    (InstallersModel.set_installer "A"
       (form monthly (datetime_date 2024 1 1) (datetime_date 2024 2 16)))
  = [(datetime_date 2024 1 1, 1); (datetime_date 2024 2 1, 1)].
Proof. vm_compute. reflexivity. Qed.

(** Two emitted cells: half and the whole of the largest count. *)
Example two_cells_percentages :
  (fun cell : Z * float64 => (cell.1, rational cell.2))
    <$> Punchcard two_cells (form monthly (datetime_date 2024 1 1) (datetime_date 2024 1 2))
  = [(1, Some (1 # 2)%Q); (2, Some (1 # 1)%Q)].
Proof. vm_compute. reflexivity. Qed.

Lemma bucket_date_rule_witness :
  let mf := form yearly (datetime_date 2024 1 1) (datetime_date 2024 1 2) in
  let r := {| Installers.timestamp := 1704153600; Installers.event := "B";
              Installers.platform := "osx"; Installers.arch := "x64";
              Installers.date := 1704153600 |} in
  selected two_cells mf !! 2%nat = Some r /\
  dates two_cells mf !! 2%nat = Some (datetime_date 2024 1 1) /\
  calendar_date (datetime_date 2024 1 1) /\
  datetime_date 2024 1 1 ∈ index (TimeSeries two_cells mf).
Proof.
  intros mf r.
  assert (selected two_cells mf !! 2%nat = Some r) as Hr by (vm_compute; reflexivity).
  split; [exact Hr|].
  exact (bucket_date_rule two_cells mf 2%nat r Hr).
Defined.

Lemma update_data_pure_witness :
  let mf := form daily (datetime_date 2024 1 1) (datetime_date 2024 1 2) in
  let self := fresh_applet mf in
  let self' := with_modelform mf (update_data three_events (fresh_applet mf)) in
  modelform self = modelform self' /\
  data (downloads_source (update_data two_cells self)) !! "downloads"%string
    = data (downloads_source (update_data two_cells self')) !! "downloads"%string /\
  update_data two_cells (update_data two_cells self) = update_data two_cells self.
Proof.
  intros mf self self'.
  assert (modelform self = modelform self') as Hmf by reflexivity.
  split; [exact Hmf|].
  pose proof (update_data_pure two_cells self self' Hmf) as Hpure.
  cbv zeta in Hpure. destruct Hpure as ((_ & Hd & _) & _ & Hidem).
  split; [exact Hd|exact Hidem].
Defined.

(** * Further properties of the applet *)

(** ** Group sizes in closed form *)

Section groupby_closed_form.
Context {K : Type} `{CmpLaws K} `{EqDecision K}.

Implicit Types (k : K) (s : Series K Z) (keys : list K).

Lemma series_of_entries s (f : K -> Z) :
  (forall k n, (k, n) ∈ s -> n = f k) -> s = (fun k => (k, f k)) <$> index s.
Proof.
  unfold index. induction s as [|[k n] r IH]; intros Hf; [reflexivity|].
  csimpl. rewrite <- IH by (intros k' n' Hin; apply Hf; by right).
  by rewrite (Hf k n) by left.
Qed.

Lemma groupby_size_closed_form keys :
  groupby_size keys = (fun k => (k, occurrences k keys)) <$> index (groupby_size keys).
Proof. apply series_of_entries. intros k n. apply groupby_size_entry. Qed.

Lemma ascending_unique (l1 l2 : list K) :
  ascending l1 -> ascending l2 -> (forall k, k ∈ l1 <-> k ∈ l2) -> l1 = l2.
Proof.
  intros H1 H2 Hiff.
  apply (StronglySorted_unique_strong (fun a b => cmp a b = Lt)); try assumption.
  - intros x1 x2 _ _ E1 E2. exfalso.
    apply (cmp_lt_irrefl x1). by eapply cmp_lt_trans.
  - apply NoDup_Permutation; [by apply ascending_NoDup..|assumption].
Qed.

Lemma occurrences_Permutation k keys keys' :
  keys ≡ₚ keys' -> occurrences k keys = occurrences k keys'.
Proof. intros Hp. unfold occurrences. by rewrite Hp. Qed.

Lemma groupby_size_Permutation keys keys' :
  keys ≡ₚ keys' -> groupby_size keys = groupby_size keys'.
Proof.
  intros Hp.
  assert (index (groupby_size keys) = index (groupby_size keys')) as Hidx.
  { apply ascending_unique; try apply groupby_size_ascending.
    intros k. rewrite !groupby_size_index. by rewrite Hp. }
  rewrite (groupby_size_closed_form keys), (groupby_size_closed_form keys'), Hidx.
  apply list_fmap_ext. intros _ k _. f_equal. by apply occurrences_Permutation.
Qed.

Lemma sum_where_nil (P : K -> Prop) `{!forall k, Decision (P k)} : sum_where P [] = 0.
Proof. reflexivity. Qed.

Lemma sum_where_cons (P : K -> Prop) `{!forall k, Decision (P k)} k n s :
  sum_where P ((k, n) :: s) = (if decide (P k) then n else 0) + sum_where P s.
Proof.
  unfold sum_where. rewrite filter_cons. csimpl.
  destruct (decide (P k)); reflexivity.
Qed.

Lemma bump_sum_where (P : K -> Prop) `{!forall k, Decision (P k)} k s :
  sum_where P (bump k s) = sum_where P s + (if decide (P k) then 1 else 0).
Proof.
  induction s as [|[k0 n] r IH]; cbn [bump].
  - rewrite sum_where_cons, sum_where_nil. lia.
  - destruct (cmp k k0) eqn:E.
    + apply cmp_eq_iff in E. subst k0. rewrite !sum_where_cons.
      destruct (decide (P k)); lia.
    + rewrite !sum_where_cons. lia.
    + rewrite !sum_where_cons, IH. lia.
Qed.

Lemma groupby_size_sum_where (P : K -> Prop) `{!forall k, Decision (P k)} keys :
  sum_where P (groupby_size keys) = Z.of_nat (length (filter P keys)).
Proof.
  unfold groupby_size. induction keys as [|k keys IH]; cbn [foldr].
  - reflexivity.
  - rewrite bump_sum_where, IH, filter_cons.
    destruct (decide (P k)); csimpl; lia.
Qed.
End groupby_closed_form.

(** ** Order of the log, resolution, alignment with the grid *)

Lemma zip_fmap_same {A B C} (f : A -> B) (g : A -> C) (l : list A) :
  zip (f <$> l) (g <$> l) = (fun x => (f x, g x)) <$> l.
Proof. induction l as [|x l IH]; csimpl; [reflexivity|]. by rewrite IH. Qed.

Lemma punchcard_keys installers mf :
  zip (hours installers mf) (daysofweek installers mf)
  = cell_of <$> selected installers mf.
Proof.
  unfold hours, daysofweek. rewrite zip_fmap_same, <- list_fmap_compose. reflexivity.
Qed.

Lemma selected_Permutation installers installers' mf :
  installers ≡ₚ installers' -> selected installers mf ≡ₚ selected installers' mf.
Proof. intros Hp. rewrite !selected_filter. by rewrite Hp. Qed.

(** X1. The two datasets do not depend on the order of the events in the
    log. *)
Theorem datasets_order_independent installers installers' mf :
  installers ≡ₚ installers' ->
  TimeSeries installers mf = TimeSeries installers' mf /\
  Punchcard installers mf = Punchcard installers' mf.
Proof.
  intros Hp. pose proof (selected_Permutation _ _ mf Hp) as Hsel.
  assert (counts installers mf = counts installers' mf) as Hc.
  { unfold counts. rewrite !punchcard_keys.
    apply groupby_size_Permutation. by rewrite Hsel. }
  split.
  - unfold TimeSeries, downloads, dates.
    apply groupby_size_Permutation. by rewrite Hsel.
  - unfold Punchcard, percentages. by rewrite Hc.
Qed.

Lemma selected_resolution installers mf (res : Resolution) :
  selected installers (InstallersModel.set_resolution res mf) = selected installers mf.
Proof. reflexivity. Qed.

Lemma length_filter_fmap {A B} (f : A -> B) (P : B -> Prop)
    `{!forall b, Decision (P b)} (l : list A) :
  length (filter P (f <$> l)) = length (filter (fun a => P (f a)) l).
Proof.
  induction l as [|a l IH]; [reflexivity|]. csimpl.
  rewrite !filter_cons. destruct (decide (P (f a))); csimpl; by rewrite IH.
Qed.

Lemma index_length_fmap_le (f : pydate -> pydate) (keys : list pydate) :
  (length (groupby_size (f <$> keys)) <= length (groupby_size keys))%nat.
Proof.
  assert (index (groupby_size (f <$> keys)) ⊆+ f <$> index (groupby_size keys)) as Hsub.
  { apply NoDup_submseteq.
    - apply ascending_NoDup, groupby_size_ascending.
    - intros b Hb. rewrite groupby_size_index in Hb.
      apply list_elem_of_fmap in Hb as (k & -> & Hk).
      apply list_elem_of_fmap. exists k. split; [reflexivity|].
      by rewrite groupby_size_index. }
  apply submseteq_length in Hsub. unfold index in Hsub.
  by rewrite !length_fmap in Hsub.
Qed.

(** X2. A coarser resolution rolls the finer series up: the count of a year
    is the sum of the counts of its months, the count of a month the sum of
    the counts of its days, and a coarser series never has more points. The
    punchcard does not depend on the resolution. *)
Theorem resolution_rollup installers mf :
  let series res := TimeSeries installers (InstallersModel.set_resolution res mf) in
  (forall b n, (b, n) ∈ series yearly ->
     n = sum_where (fun d => year_of d = year_of b) (series monthly)) /\
  (forall b n, (b, n) ∈ series monthly ->
     n = sum_where (fun d => year_of d = year_of b /\ month_of d = month_of b)
           (series daily)) /\
  (length (series yearly) <= length (series monthly) <= length (series daily))%nat /\
  (forall res, Punchcard installers (InstallersModel.set_resolution res mf)
               = Punchcard installers mf).
Proof.
  intros series. subst series. cbv beta.
  unfold TimeSeries, downloads, dates.
  rewrite !selected_resolution.
  cbn [InstallersModel.resolution InstallersModel.set_resolution].
  set (xs := Installers.date <$> selected installers mf).
  split; [|split; [|split]].
  - intros b n Hin.
    assert (b ∈ fn yearly <$> xs) as Hb.
    { rewrite <- groupby_size_index. apply list_elem_of_fmap. by exists (b, n). }
    apply groupby_size_entry in Hin. subst n.
    rewrite groupby_size_sum_where. unfold occurrences. f_equal.
    rewrite !length_filter_fmap. f_equal.
    apply list_elem_of_fmap in Hb as (x0 & -> & _).
    apply list_filter_iff. intros x. unfold fn. cbn [year_of]. split.
    + intros E. by inversion E.
    + intros E. by rewrite E.
  - intros b n Hin.
    assert (b ∈ fn monthly <$> xs) as Hb.
    { rewrite <- groupby_size_index. apply list_elem_of_fmap. by exists (b, n). }
    apply groupby_size_entry in Hin. subst n.
    rewrite groupby_size_sum_where. unfold occurrences. f_equal.
    rewrite !length_filter_fmap. f_equal.
    apply list_elem_of_fmap in Hb as (x0 & -> & _).
    apply list_filter_iff. intros x. unfold fn. cbn [year_of month_of]. split.
    + intros E. by inversion E.
    + intros [E1 E2]. by rewrite E1, E2.
  - split.
    + assert (fn yearly <$> xs
              = (fun d => datetime_date (year_of d) 1 1) <$> (fn monthly <$> xs)) as ->.
      { rewrite <- list_fmap_compose. reflexivity. }
      apply index_length_fmap_le.
    + assert (fn monthly <$> xs
              = (fun d => datetime_date (year_of d) (month_of d) 1)
                  <$> (fn daily <$> xs)) as ->.
      { rewrite <- list_fmap_compose. reflexivity. }
      apply index_length_fmap_le.
  - intros res. reflexivity.
Qed.

Lemma grid_ascending : ascending grid.
Proof. apply (bool_decide_unpack _). vm_compute. reflexivity. Qed.

Lemma counts_index installers mf (cell : Z * Z) :
  cell ∈ index (counts installers mf)
  <-> exists r, r ∈ selected installers mf /\ cell_of r = cell.
Proof.
  unfold counts. rewrite punchcard_keys, groupby_size_index, list_elem_of_fmap.
  split; intros (r & H1 & H2); eauto.
Qed.

Lemma cell_of_grid (r : Installers.row) : cell_of r ∈ grid.
Proof.
  unfold cell_of. apply grid_spec. split; [apply hour_range|apply dayofweek_range].
Qed.

(** X3. The punchcard never has more than 168 cells, and it has 168, one
    for each cell of the grid and in the order of the grid labels, exactly
    when every (hour, weekday) combination occurs among the selected
    events. *)
Theorem punchcard_aligned installers mf :
  (length (Punchcard installers mf) <= 168)%nat /\
  (length (Punchcard installers mf) = 168%nat <->
     forall cell, cell ∈ grid ->
       exists r, r ∈ selected installers mf /\ cell_of r = cell) /\
  (length (Punchcard installers mf) = 168%nat -> index (counts installers mf) = grid).
Proof.
  assert (length (Punchcard installers mf) = length (index (counts installers mf))) as ->.
  { rewrite <- (length_fmap fst (Punchcard installers mf)), Punchcard_counts.
    unfold values, index. by rewrite !length_fmap. }
  set (keys := index (counts installers mf)).
  assert (ascending keys) as Hasc by apply groupby_size_ascending.
  assert (NoDup keys) as Hnd by (by apply ascending_NoDup).
  assert (NoDup grid) as Hgrid by apply ascending_NoDup, grid_ascending.
  assert (length grid = 168%nat) as Hlen by (vm_compute; reflexivity).
  assert (keys ⊆+ grid) as Hsub.
  { apply NoDup_submseteq; [assumption|]. intros cell Hc.
    apply counts_index in Hc as (r & _ & <-). apply cell_of_grid. }
  assert (length keys = 168%nat -> keys ≡ₚ grid) as Hperm.
  { intros E. apply submseteq_length_Permutation; [assumption|lia]. }
  split; [apply submseteq_length in Hsub; lia|]. split; [split|].
  - intros E cell Hc. apply counts_index. fold keys. by rewrite (Hperm E).
  - intros Hall. apply Nat.le_antisymm; [apply submseteq_length in Hsub; lia|].
    rewrite <- Hlen. apply submseteq_length, NoDup_submseteq; [assumption|].
    intros cell Hc. apply counts_index. by apply Hall.
  - intros E. apply ascending_unique; [assumption|apply grid_ascending|].
    intros cell. by rewrite (Hperm E).
Qed.

(** ** The date range *)

Lemma date_of_Timestamp_mono (x y : Timestamp) :
  x <= y -> date_le (date_of_Timestamp x) (date_of_Timestamp y).
Proof.
  intros Hxy. apply midnight_le_iff; [apply date_of_Timestamp_calendar|].
  rewrite Timestamp_of_date_of_Timestamp.
  unfold seconds_per_day. Z.div_mod_to_equations. lia.
Qed.

Lemma le_midnight_date_le (d : pydate) (x : Timestamp) :
  calendar_date d -> x <= Timestamp_of_date d -> date_le (date_of_Timestamp x) d.
Proof.
  intros Hd Hx. apply (le_midnight_iff d x Hd) in Hx as [Hlt| ->].
  - unfold date_le. congruence.
  - unfold date_le. intros Hgt. apply cmp_gt_lt in Hgt.
    pose proof (Timestamp_of_date_lt _ _ Hd (date_of_Timestamp_calendar _) Hgt) as Hs.
    rewrite Timestamp_of_date_of_Timestamp in Hs.
    unfold seconds_per_day in Hs. Z.div_mod_to_equations. lia.
Qed.

(** X4. No event outside the date range is ever selected: the date of a
    selected event lies between [start] and [end], and so does every date
    of the daily series. *)
Theorem selected_within_range installers mf :
  calendar_date (InstallersModel.start mf) ->
  calendar_date (InstallersModel.end_ mf) ->
  (forall r, r ∈ selected installers mf ->
     r ∈ installers /\
     date_le (InstallersModel.start mf) (date_of_Timestamp (Installers.date r)) /\
     date_le (date_of_Timestamp (Installers.date r)) (InstallersModel.end_ mf)) /\
  (forall b, b ∈ index (TimeSeries installers (InstallersModel.set_resolution daily mf)) ->
     date_le (InstallersModel.start mf) b /\ date_le b (InstallersModel.end_ mf)).
Proof.
  intros Hs He.
  assert (forall r, r ∈ selected installers mf ->
     r ∈ installers /\
     date_le (InstallersModel.start mf) (date_of_Timestamp (Installers.date r)) /\
     date_le (date_of_Timestamp (Installers.date r)) (InstallersModel.end_ mf)) as Hsel.
  { intros r Hr. rewrite selected_filter, list_elem_of_filter in Hr.
    destruct Hr as [(H1 & H2 & _) Hin]. split; [assumption|]. split.
    - by apply midnight_le_iff.
    - by apply le_midnight_date_le. }
  split; [exact Hsel|].
  intros b Hb. unfold TimeSeries, downloads in Hb. rewrite groupby_size_index in Hb.
  unfold dates in Hb. rewrite selected_resolution in Hb.
  apply list_elem_of_fmap in Hb as (x & -> & Hx).
  apply list_elem_of_fmap in Hx as (r & -> & Hr).
  destruct (Hsel r Hr) as (_ & H1 & H2). exact (conj H1 H2).
Qed.

(** ** The defaults of the form and what the widgets offer *)

Lemma Timestamp_max_upper (l : list Timestamp) (hi x : Timestamp) :
  Timestamp_max l = Some hi -> x ∈ l -> x <= hi.
Proof.
  revert hi. induction l as [|y l IH]; intros hi Hmax Hx.
  - by apply elem_of_nil in Hx.
  - cbn [Timestamp_max foldr] in Hmax. fold (Timestamp_max l) in Hmax.
    apply elem_of_cons in Hx as [->|Hx].
    + destruct (Timestamp_max l); injection Hmax as <-; lia.
    + destruct (Timestamp_max l) as [m|] eqn:Em.
      * injection Hmax as <-. specialize (IH m eq_refl Hx). lia.
      * destruct l; [by apply elem_of_nil in Hx|discriminate Em].
Qed.

Lemma Timestamp_min_elem (l : list Timestamp) (lo : Timestamp) :
  Timestamp_min l = Some lo -> lo ∈ l.
Proof.
  revert lo. induction l as [|y l IH]; intros lo Hmin; [discriminate|].
  cbn [Timestamp_min foldr] in Hmin. fold (Timestamp_min l) in Hmin.
  destruct (Timestamp_min l) as [m|]; injection Hmin as <-; [|by left].
  destruct (Z.min_spec y m) as [[_ ->]|[_ ->]]; [by left|right; by apply IH].
Qed.

Lemma Timestamp_max_elem (l : list Timestamp) (hi : Timestamp) :
  Timestamp_max l = Some hi -> hi ∈ l.
Proof.
  revert hi. induction l as [|y l IH]; intros hi Hmax; [discriminate|].
  cbn [Timestamp_max foldr] in Hmax. fold (Timestamp_max l) in Hmax.
  destruct (Timestamp_max l) as [m|]; injection Hmax as <-; [|by left].
  destruct (Z.max_spec y m) as [[_ ->]|[_ ->]]; [right; by apply IH|by left].
Qed.

Lemma InstallersModel_new_inv installers mf0 :
  InstallersModel_new installers = Some mf0 ->
  exists lo hi,
    Timestamp_min (Installers.date <$> installers) = Some lo /\
    Timestamp_max (Installers.date <$> installers) = Some hi /\
    mf0 = form monthly (date_of_Timestamp lo) (date_of_Timestamp hi).
Proof.
  unfold InstallersModel_new. intros Hnew.
  destruct (Timestamp_min _) as [lo|]; [|discriminate].
  destruct (Timestamp_max _) as [hi|]; [|discriminate].
  cbn [mbind option_bind] in Hnew. injection Hnew as <-. by exists lo, hi.
Qed.

(** X5. The default form has every category at "All", the monthly
    resolution, and as date range the dates of the earliest and of the
    latest event: each is the date of some event, and the date of every
    event of the log lies between them. *)
Theorem default_range_covers installers mf0 :
  InstallersModel_new installers = Some mf0 ->
  InstallersModel.installer mf0 = "All"%string /\
  InstallersModel.platform mf0 = "All"%string /\
  InstallersModel.arch mf0 = "All"%string /\
  InstallersModel.resolution mf0 = monthly /\
  (exists r, r ∈ installers /\
     date_of_Timestamp (Installers.date r) = InstallersModel.start mf0) /\
  (exists r, r ∈ installers /\
     date_of_Timestamp (Installers.date r) = InstallersModel.end_ mf0) /\
  (forall r, r ∈ installers ->
     date_le (InstallersModel.start mf0) (date_of_Timestamp (Installers.date r)) /\
     date_le (date_of_Timestamp (Installers.date r)) (InstallersModel.end_ mf0)).
Proof.
  intros Hnew. apply InstallersModel_new_inv in Hnew as (lo & hi & Hlo & Hhi & ->).
  cbn [form InstallersModel.installer InstallersModel.platform InstallersModel.arch
       InstallersModel.resolution InstallersModel.start InstallersModel.end_].
  repeat (split; [reflexivity|]).
  split; [|split].
  - apply Timestamp_min_elem, list_elem_of_fmap in Hlo as (r & -> & Hr). eauto.
  - apply Timestamp_max_elem, list_elem_of_fmap in Hhi as (r & -> & Hr). eauto.
  - intros r Hr.
    assert (Installers.date r ∈ Installers.date <$> installers) as Hin
      by (apply list_elem_of_fmap; eauto).
    split; apply date_of_Timestamp_mono.
    + by apply (Timestamp_min_lower _ _ _ Hlo).
    + by apply (Timestamp_max_upper _ _ _ Hhi).
Qed.

(** X7. Whatever the widgets are set to, an event later than the first
    instant of the latest event's date is never selected; when the latest
    event itself is not at 00:00:00, it is such an event. *)
Theorem last_day_never_selected installers mf :
  offered installers mf ->
  (forall r mf0, InstallersModel_new installers = Some mf0 ->
     Timestamp_of_date (InstallersModel.end_ mf0) < Installers.date r ->
     r ∉ selected installers mf) /\
  (forall hi, Timestamp_max (Installers.date <$> installers) = Some hi ->
     hi mod seconds_per_day <> 0 ->
     exists r, r ∈ installers /\ Installers.date r = hi /\ r ∉ selected installers mf).
Proof.
  intros (mf0 & Hnew & _ & _ & _ & _ & He & _ & Hend).
  assert (forall r, Timestamp_of_date (InstallersModel.end_ mf0) < Installers.date r ->
                    r ∉ selected installers mf) as Hdrop.
  { intros r Hlate. rewrite selected_filter, list_elem_of_filter.
    unfold keep_end. intros [(_ & Hk & _) _].
    assert (calendar_date (InstallersModel.end_ mf0)) as He0.
    { apply InstallersModel_new_inv in Hnew as (lo & hi & _ & _ & ->).
      apply date_of_Timestamp_calendar. }
    pose proof (Timestamp_of_date_mono _ _ He He0 Hend). lia. }
  split.
  - intros r mf0' Hnew'. rewrite Hnew in Hnew'. injection Hnew' as <-. apply Hdrop.
  - intros hi Hhi Hmid.
    pose proof Hhi as Hin.
    apply Timestamp_max_elem, list_elem_of_fmap in Hin as (r & Hr & Hrin).
    exists r. split; [assumption|]. split; [by symmetry|]. apply Hdrop.
    apply InstallersModel_new_inv in Hnew as (lo & hi' & _ & Hhi' & ->).
    rewrite Hhi in Hhi'. injection Hhi' as <-.
    cbn [form InstallersModel.end_]. rewrite Timestamp_of_date_of_Timestamp, <- Hr.
    unfold seconds_per_day in *. Z.div_mod_to_equations. lia.
Qed.

Lemma unique_elem (l : list string) (x : string) : x ∈ unique l <-> x ∈ l.
Proof.
  induction l as [|y l IH]; [reflexivity|]. cbn [unique].
  rewrite !elem_of_cons, list_elem_of_filter, IH.
  destruct (decide (x = y)); tauto.
Qed.

Lemma unique_NoDup (l : list string) : NoDup (unique l).
Proof.
  induction l as [|y l IH]; cbn [unique]; constructor.
  - rewrite list_elem_of_filter. intros [Hne _]. by apply Hne.
  - by apply NoDup_filter.
Qed.

(** X8. Each select offers "All" first, then every value of its column
    of the log and nothing else, each once, in ascending order. *)
Theorem Enum_values_spec (column : list string) :
  head (Enum_values column) = Some "All"%string /\
  (forall v, v ∈ Enum_values column <-> v = "All"%string \/ v ∈ column) /\
  NoDup (tail (Enum_values column)) /\
  StronglySorted String.le (tail (Enum_values column)).
Proof.
  unfold Enum_values, sorted. cbn [head tail].
  split; [reflexivity|]. split; [|split].
  - intros v. rewrite elem_of_cons, merge_sort_Permutation, unique_elem. reflexivity.
  - rewrite merge_sort_Permutation. apply unique_NoDup.
  - apply StronglySorted_merge_sort; apply _.
Qed.

(** ** Creation and sessions *)

Lemma input_change_columns installers self :
  let app := input_change installers self in
  let mf := modelform self in
  modelform app = mf /\
  data (downloads_source app) !! "dates"%string
    = Some (Dates (index (TimeSeries installers mf))) /\
  data (downloads_source app) !! "downloads"%string
    = Some (Ints (values (TimeSeries installers mf))) /\
  data (punchcard_source app) !! "counts"%string
    = Some (Ints ((Punchcard installers mf).*1)) /\
  data (punchcard_source app) !! "percentages"%string
    = Some (Floats ((Punchcard installers mf).*2)) /\
  _dirty (downloads_source app) = true /\
  _dirty (punchcard_source app) = true.
Proof.
  intros app mf. subst app mf.
  destruct (update_data_columns installers self) as (H1 & H2 & H3 & H4).
  unfold input_change. cbn [modelform downloads_source punchcard_source].
  split; [reflexivity|]. by repeat split.
Qed.


(** X10. After any sequence of widget changes the applet shows the last form
    set: its sources hold the two datasets of that form, and the plot
    titles name its installer. *)
Theorem session_converges installers changes mf app :
  let app' := session installers (changes ++ [mf]) app in
  modelform app' = mf /\
  data (downloads_source app') !! "dates"%string
    = Some (Dates (index (TimeSeries installers mf))) /\
  data (downloads_source app') !! "downloads"%string
    = Some (Ints (values (TimeSeries installers mf))) /\
  data (punchcard_source app') !! "counts"%string
    = Some (Ints ((Punchcard installers mf).*1)) /\
  data (punchcard_source app') !! "percentages"%string
    = Some (Floats ((Punchcard installers mf).*2)) /\
  _dirty (downloads_source app') = true /\
  _dirty (punchcard_source app') = true /\
  downloads_plot app'
    = Some {| title := (InstallersModel.installer mf ++ " downloads")%string |} /\
  punchcard_plot app'
    = Some {| title := (InstallersModel.installer mf ++ " punchcard")%string |}.
Proof.
  intros app'. subst app'. unfold session. rewrite foldl_app. cbn [foldl].
  set (before := foldl _ app changes).
  destruct (input_change_columns installers (with_modelform mf before))
    as (H0 & H1 & H2 & H3 & H4 & H5 & H6).
  cbn [with_modelform modelform] in H0, H1, H2, H3, H4.
  repeat split; assumption || reflexivity.
Qed.

(** ** Appended logs *)

(** X11. Aggregating two logs one after the other is aggregating each and
    adding up: the selection of the appended log is the one selection
    followed by the other, and the count of every bucket and of every
    punchcard cell is the sum of its counts in the two logs. *)
Theorem appended_logs (A B : DataFrame) mf :
  selected (A ++ B) mf = selected A mf ++ selected B mf /\
  (forall b, weight b (TimeSeries (A ++ B) mf)
             = weight b (TimeSeries A mf) + weight b (TimeSeries B mf)) /\
  (forall cell, weight cell (counts (A ++ B) mf)
                = weight cell (counts A mf) + weight cell (counts B mf)).
Proof.
  assert (selected (A ++ B) mf = selected A mf ++ selected B mf) as Hsel.
  { rewrite !selected_filter. apply filter_app. }
  split; [exact Hsel|]. split.
  - intros b. unfold TimeSeries, downloads, dates.
    rewrite !groupby_size_weight, Hsel, !fmap_app.
    unfold occurrences. rewrite filter_app, length_app. lia.
  - intros cell. unfold counts. rewrite !punchcard_keys, !groupby_size_weight, Hsel, fmap_app.
    unfold occurrences. rewrite filter_app, length_app. lia.
Qed.

(** ** Percentages and counts *)

Lemma quotient_le_iff (c c' m : Z) :
  0 < m ->
  (Q2Qc (inject_Z c / inject_Z m) <= Q2Qc (inject_Z c' / inject_Z m))%Qc <-> c <= c'.
Proof.
  intros Hm. unfold Qcle. cbn [this Q2Qc]. rewrite !Qred_correct.
  destruct m as [|p|p]; try lia.
  unfold Qdiv, Qinv, Qmult, Qle, inject_Z. cbn. nia.
Qed.

Lemma quotient_one_iff (c m : Z) :
  0 < m -> Q2Qc (inject_Z c / inject_Z m) = 1%Qc <-> c = m.
Proof.
  intros Hm. split; [|intros ->; by apply quotient_one].
  intros E. apply (f_equal this) in E. cbn [this Q2Qc Q2Qc] in E.
  assert (inject_Z c / inject_Z m == 1)%Q as E'.
  { rewrite <- (Qred_correct (inject_Z c / inject_Z m)). by rewrite E. }
  destruct m as [|p|p]; try lia.
  unfold Qdiv, Qinv, Qmult, Qeq, inject_Z in E'. cbn in E'. lia.
Qed.

Lemma quotient_positive (c m : Z) :
  0 < c -> 0 < m -> ~ (Q2Qc (inject_Z c / inject_Z m) <= 0)%Qc.
Proof.
  intros Hc Hm. unfold Qcle. change (this 0%Qc) with (0 # 1)%Q.
  cbn [this Q2Qc]. rewrite Qred_correct.
  destruct m as [|p|p]; try lia.
  unfold Qdiv, Qinv, Qmult, Qle, inject_Z. cbn. intros Hle. lia.
Qed.

(** X12. The percentages order the cells as the counts do, every emitted
    cell has a positive percentage, and the cells of percentage 1 are
    exactly those with the largest count. *)
Theorem percentage_order installers mf (i j : nat) (c c' : Z) (p p' : float64) :
  Punchcard installers mf !! i = Some (c, p) ->
  Punchcard installers mf !! j = Some (c', p') ->
  exists q q',
    p = Fin q /\ p' = Fin q' /\
    ((q <= q')%Qc <-> c <= c') /\
    (q = 1%Qc <-> c = max_count installers mf) /\
    ~ (q <= 0)%Qc.
Proof.
  intros Hi Hj. unfold max_count.
  pose proof (counts_positive installers mf) as Hpos.
  apply Punchcard_lookup in Hi as [Hc ->]. apply Punchcard_lookup in Hj as [Hc' ->].
  set (cs := values (counts installers mf)) in *.
  assert (c ∈ cs) as Hin by (by eapply list_elem_of_lookup_2).
  assert (c' ∈ cs) as Hin' by (by eapply list_elem_of_lookup_2).
  rewrite Forall_forall in Hpos.
  pose proof (Hpos c Hin) as Hc1. pose proof (max_fold_upper cs c Hin) as Hle.
  assert (cs <> []) as Hne by (intros E; rewrite E in Hin; by apply elem_of_nil in Hin).
  rewrite series_max_fold by (assumption || by apply Forall_forall).
  rewrite !truediv_positive by lia.
  eexists _, _. split; [reflexivity|]. split; [reflexivity|].
  split; [apply quotient_le_iff; lia|]. split; [apply quotient_one_iff; lia|].
  apply quotient_positive; lia.
Qed.

(** ** Selections that come out empty *)

Lemma empty_columns installers self :
  selected installers (modelform self) = [] ->
  let app := update_data installers self in
  data (downloads_source app) !! "dates"%string = Some (Dates []) /\
  data (downloads_source app) !! "downloads"%string = Some (Ints []) /\
  data (punchcard_source app) !! "counts"%string = Some (Ints []) /\
  data (punchcard_source app) !! "percentages"%string = Some (Floats []).
Proof.
  intros Hsel app. subst app.
  destruct (update_data_columns installers self) as (H1 & H2 & H3 & H4).
  destruct (empty_selection installers (modelform self) Hsel) as (Hts & Hpc & _).
  rewrite Hts in H1, H2. rewrite Hpc in H3, H4. by repeat split.
Qed.

(** X13. An inverted date range is not an error: nothing is selected, and the
    recomputation leaves four empty columns. *)
Theorem inverted_range_outputs installers self :
  calendar_date (InstallersModel.start (modelform self)) ->
  calendar_date (InstallersModel.end_ (modelform self)) ->
  cmp (InstallersModel.end_ (modelform self)) (InstallersModel.start (modelform self)) = Lt ->
  let app := update_data installers self in
  selected installers (modelform self) = [] /\
  data (downloads_source app) !! "dates"%string = Some (Dates []) /\
  data (downloads_source app) !! "downloads"%string = Some (Ints []) /\
  data (punchcard_source app) !! "counts"%string = Some (Ints []) /\
  data (punchcard_source app) !! "percentages"%string = Some (Floats []).
Proof.
  intros Hs He Hlt app.
  pose proof (inverted_range_empty installers (modelform self) Hs He Hlt) as Hsel.
  split; [exact Hsel|]. by apply empty_columns.
Qed.


(** X6. With the default form an event is selected exactly when its date is
    before the date of the latest event or it falls on the first instant
    of that date. *)
Theorem default_form_selection installers mf0 r :
  InstallersModel_new installers = Some mf0 ->
  r ∈ selected installers mf0 <->
  r ∈ installers /\
  (cmp (date_of_Timestamp (Installers.date r)) (InstallersModel.end_ mf0) = Lt \/
   Installers.date r = Timestamp_of_date (InstallersModel.end_ mf0)).
Proof.
  intros Hnew. rewrite selected_filter, list_elem_of_filter.
  assert (calendar_date (InstallersModel.end_ mf0)) as He.
  { apply InstallersModel_new_inv in Hnew as (lo & hi & _ & _ & ->).
    apply date_of_Timestamp_calendar. }
  rewrite <- (le_midnight_iff _ _ He).
  split.
  - intros [(_ & Hk & _) Hin]. split; assumption.
  - intros [Hin Hk]. split; [|assumption].
    split; [|split; [exact Hk|]].
    + pose proof (default_start_keeps_all installers mf0 mf0 r Hnew Hin) as Hstart.
      unfold keep_start in *. by destruct mf0.
    + apply InstallersModel_new_inv in Hnew as (lo & hi & _ & _ & ->).
      unfold keep_installer, keep_platform, keep_arch. cbn. tauto.
Qed.

(** ** The ranges of the punchcard plot *)

Lemma lookup_concat_replicate {A} (n : nat) (ls : list A) (i : nat) :
  (0 < n)%nat -> concat (replicate n <$> ls) !! (i * n)%nat = ls !! i.
Proof.
  intros Hn. revert i. induction ls as [|x ls IH]; intros i; [reflexivity|].
  csimpl. destruct i as [|i].
  - rewrite lookup_app_l by (rewrite length_replicate; lia).
    by rewrite lookup_replicate_2 by lia.
  - rewrite lookup_app_r by (rewrite length_replicate; lia).
    rewrite length_replicate.
    replace (S i * n - n)%nat with (i * n)%nat by lia. apply IH.
Qed.

Lemma omap_fmap_compose {A B C} (g : A -> B) (f : B -> option C) (l : list A) :
  omap f (g <$> l) = omap (fun a => f (g a)) l.
Proof.
  induction l as [|a l IH]; [reflexivity|]. csimpl.
  destruct (f (g a)); by rewrite IH.
Qed.

Lemma omap_lookup_seq {A} (ls : list A) (m : nat) :
  (length ls <= m)%nat -> omap (fun i => ls !! i) (seq 0 m) = ls.
Proof.
  revert m. induction ls as [|x ls IH]; intros m Hm.
  - induction (seq 0 m) as [|i l IHl]; [reflexivity|]. csimpl. exact IHl.
  - destruct m as [|m]; [cbn in Hm; lia|].
    cbn [seq]. csimpl. f_equal.
    rewrite <- fmap_S_seq, omap_fmap_compose. csimpl in Hm.
    exact (IH m ltac:(lia)).
Qed.

Lemma slice_step_concat_replicate {A} (n : nat) (ls : list A) :
  (0 < n)%nat -> slice_step n (concat (replicate n <$> ls)) = ls.
Proof.
  intros Hn. unfold slice_step.
  set (m := length (concat (replicate n <$> ls))).
  transitivity (omap (fun i => ls !! i) (seq 0 m)).
  - apply list_omap_ext, Forall2_same_length_lookup. split; [reflexivity|].
    intros i x y Hx Hy. rewrite Hx in Hy. injection Hy as <-.
    apply lookup_seq in Hx as [-> _]. by apply lookup_concat_replicate.
  - apply omap_lookup_seq. subst m.
    clear -Hn. induction ls as [|x ls IH]; [reflexivity|]. csimpl.
    rewrite length_app, length_replicate. lia.
Qed.

(** X15. On a source whose [hours] column repeats each label seven times and
    whose [days] column repeats seven labels, the plot ranges are the
    labels themselves, each once and in order; a source without one of the
    two columns makes [make_punchcard_plot] fail. *)
Theorem punchcard_factors_spec (source : ColumnDataSource)
    (hs ds : list string) (k : nat) :
  data source !! "hours"%string = Some (Strs (concat (replicate 7 <$> hs))) ->
  data source !! "days"%string = Some (Strs (concat (replicate (S k) ds))) ->
  length ds = 7%nat ->
  punchcard_factors source = Some (Strs hs, Strs ds) /\
  (forall other,
     data other !! "hours"%string = None \/ data other !! "days"%string = None ->
     punchcard_factors other = None).
Proof.
  intros Hh Hd Hlen. split.
  - unfold punchcard_factors. rewrite Hh, Hd. cbn [mbind option_bind column_slice].
    rewrite slice_step_concat_replicate by lia.
    cbn [replicate concat]. by rewrite take_app_length' by done.
  - intros other [Hn|Hn]; unfold punchcard_factors; rewrite Hn.
    + reflexivity.
    + by destruct (data other !! "hours"%string).
Qed.

(** ** The further properties at work on the sample logs *)

Ltac calendar := unfold calendar_date; repeat split; vm_compute; discriminate.

Lemma datasets_order_independent_witness :
  let mf := form daily (datetime_date 2024 1 1) (datetime_date 2024 1 2) in
  two_cells ≡ₚ reverse two_cells /\
  TimeSeries two_cells mf = TimeSeries (reverse two_cells) mf /\
  Punchcard two_cells mf = Punchcard (reverse two_cells) mf.
Proof.
  intros mf.
  assert (two_cells ≡ₚ reverse two_cells) as Hp by (symmetry; apply reverse_Permutation).
  split; [exact Hp|].
  exact (datasets_order_independent two_cells (reverse two_cells) mf Hp).
Defined.

Lemma selected_within_range_witness :
  let mf := form daily (datetime_date 2024 1 1) (datetime_date 2024 1 2) in
  calendar_date (InstallersModel.start mf) /\
  calendar_date (InstallersModel.end_ mf) /\
  (forall b, b ∈ index (TimeSeries two_cells (InstallersModel.set_resolution daily mf)) ->
     date_le (InstallersModel.start mf) b /\ date_le b (InstallersModel.end_ mf)).
Proof.
  intros mf.
  assert (calendar_date (InstallersModel.start mf)) as Hs by calendar.
  assert (calendar_date (InstallersModel.end_ mf)) as He by calendar.
  split; [exact Hs|]. split; [exact He|].
  exact (proj2 (selected_within_range two_cells mf Hs He)).
Defined.

Lemma default_range_covers_witness :
  let mf0 := form monthly (datetime_date 2024 1 1) (datetime_date 2024 2 15) in
  InstallersModel_new three_events = Some mf0 /\
  (forall r, r ∈ three_events ->
     date_le (InstallersModel.start mf0) (date_of_Timestamp (Installers.date r)) /\
     date_le (date_of_Timestamp (Installers.date r)) (InstallersModel.end_ mf0)).
Proof.
  intros mf0.
  assert (InstallersModel_new three_events = Some mf0) as Hnew by (vm_compute; reflexivity).
  split; [exact Hnew|].
  exact (proj2 (proj2 (proj2 (proj2 (proj2 (proj2
           (default_range_covers three_events mf0 Hnew))))))).
Defined.

Lemma default_form_selection_witness :
  let mf0 := form monthly (datetime_date 2024 1 1) (datetime_date 2024 2 15) in
  let r := {| Installers.timestamp := 1704103200; Installers.event := "A";
              Installers.platform := "win"; Installers.arch := "x64";
              Installers.date := 1704103200 |} in
  InstallersModel_new three_events = Some mf0 /\
  (r ∈ selected three_events mf0 <->
   r ∈ three_events /\
   (cmp (date_of_Timestamp (Installers.date r)) (InstallersModel.end_ mf0) = Lt \/
    Installers.date r = Timestamp_of_date (InstallersModel.end_ mf0))).
Proof.
  intros mf0 r.
  assert (InstallersModel_new three_events = Some mf0) as Hnew by (vm_compute; reflexivity).
  split; [exact Hnew|].
  exact (default_form_selection three_events mf0 r Hnew).
Defined.

Lemma last_day_never_selected_witness :
  let mf := form monthly (datetime_date 2024 1 1) (datetime_date 2024 2 15) in
  offered three_events mf /\
  exists r, r ∈ three_events /\ Installers.date r = 1707998400 /\
            r ∉ selected three_events mf.
Proof.
  intros mf.
  assert (offered three_events mf) as Hoff.
  { exists mf. split; [vm_compute; reflexivity|].
    split; [left|]. split; [left|]. split; [left|].
    split; [calendar|]. split; [calendar|].
    split; vm_compute; discriminate. }
  split; [exact Hoff|].
  pose proof (proj2 (last_day_never_selected three_events mf Hoff)) as Hlast.
  apply (Hlast 1707998400).
  - vm_compute. reflexivity.
  - vm_compute. discriminate.
Defined.

Lemma percentage_order_witness :
  let mf := form monthly (datetime_date 2024 1 1) (datetime_date 2024 1 2) in
  Punchcard two_cells mf !! 0%nat = Some (1, truediv 1 (Some 2)) /\
  Punchcard two_cells mf !! 1%nat = Some (2, truediv 2 (Some 2)) /\
  exists q q',
    truediv 1 (Some 2) = Fin q /\ truediv 2 (Some 2) = Fin q' /\
    ((q <= q')%Qc <-> 1 <= 2) /\
    (q = 1%Qc <-> 1 = max_count two_cells mf) /\
    ~ (q <= 0)%Qc.
Proof.
  intros mf.
  assert (Punchcard two_cells mf !! 0%nat = Some (1, truediv 1 (Some 2))) as H0
    by (vm_compute; reflexivity).
  assert (Punchcard two_cells mf !! 1%nat = Some (2, truediv 2 (Some 2))) as H1
    by (vm_compute; reflexivity).
  split; [exact H0|]. split; [exact H1|].
  exact (percentage_order two_cells mf 0 1 1 2 _ _ H0 H1).
Defined.

Lemma inverted_range_outputs_witness :
  let self := fresh_applet (form monthly (datetime_date 2024 1 2) (datetime_date 2024 1 1)) in
  calendar_date (InstallersModel.start (modelform self)) /\
  calendar_date (InstallersModel.end_ (modelform self)) /\
  cmp (InstallersModel.end_ (modelform self)) (InstallersModel.start (modelform self)) = Lt /\
  selected two_cells (modelform self) = [] /\
  data (punchcard_source (update_data two_cells self)) !! "counts"%string = Some (Ints []).
Proof.
  intros self.
  assert (calendar_date (InstallersModel.start (modelform self))) as Hs by calendar.
  assert (calendar_date (InstallersModel.end_ (modelform self))) as He by calendar.
  assert (cmp (InstallersModel.end_ (modelform self))
              (InstallersModel.start (modelform self)) = Lt) as Hlt
    by (vm_compute; reflexivity).
  split; [exact Hs|]. split; [exact He|]. split; [exact Hlt|].
  pose proof (inverted_range_outputs two_cells self Hs He Hlt) as Hout.
  cbv zeta in Hout. destruct Hout as (Hsel & _ & _ & Hc & _).
  split; [exact Hsel|exact Hc].
Defined.


Lemma punchcard_factors_spec_witness :
  let source :=
    punchcard_source
      (fresh_applet (form monthly (datetime_date 2024 1 1) (datetime_date 2024 1 2))) in
  let hs : list string := (fun h : Z => pretty h) <$> seqZ 0 24 in
  let ds := ["Monday"; "Tuesday"; "Wednesday"; "Thursday"; "Friday"; "Saturday";
             "Sunday"]%string in
  data source !! "hours"%string = Some (Strs (concat (replicate 7 <$> hs))) /\
  data source !! "days"%string = Some (Strs (concat (replicate 24 ds))) /\
  length ds = 7%nat /\
  punchcard_factors source = Some (Strs hs, Strs ds).
Proof.
  intros source hs ds.
  assert (data source !! "hours"%string = Some (Strs (concat (replicate 7 <$> hs)))) as Hh
    by (vm_compute; reflexivity).
  assert (data source !! "days"%string = Some (Strs (concat (replicate 24 ds)))) as Hd
    by (vm_compute; reflexivity).
  split; [exact Hh|]. split; [exact Hd|]. split; [reflexivity|].
  exact (proj1 (punchcard_factors_spec source hs ds 23 Hh Hd eq_refl)).
Defined.
